(** * Pitchfork "Best New Tracks" scraper: a shallow embedding of
    [pitchfork_scraper.py] and the properties of its two functions,
    [get_track] and [scrape_songs]. *)

From Stdlib Require Import ZArith NArith List Bool Ascii String Lia.
From Stdlib Require Import Numbers.DecimalString Numbers.DecimalZ Numbers.DecimalPos.
From stdpp Require Import base decidable option list numbers gmap.

Local Open Scope Z_scope.

(** ** Python strings

    A Python [str] is a sequence of Unicode code points; [ord] of a one
    character string is its code point.  The scraper handles two code points
    outside ASCII (U+201C and U+201D), so a [str] is a list of code points
    rather than a byte string. *)

Module PyStr.

Abbreviation codepoint := N (only parsing).
Abbreviation str := (list N) (only parsing).

Definition ord (c : codepoint) : N := c.

(** The ASCII literals of the source, written as Rocq strings. *)
Definition lit (s : string) : str :=
  map (fun a => N.of_nat (nat_of_ascii a)) (list_ascii_of_string s).

(** [str(n)] for an [int], as an f-string renders it. *)
Definition of_int (z : Z) : str :=
  lit (NilZero.string_of_int (Z.to_int z)).

(** [sep.join(items)] where every item is a [str]. *)
Fixpoint join (sep : str) (items : list str) : str :=
  match items with
  | [] => []
  | [x] => x
  | x :: rest => x ++ sep ++ join sep rest
  end.

(** [s.translate(table)]: a code point that is a key of [table] is dropped
    when its value is [None] and replaced by the value when it is a string;
    a code point that is not a key is kept. *)
Definition translate_char (table : gmap N (option str)) (c : codepoint) : str :=
  match table !! ord c with
  | None => [c]
  | Some None => []
  | Some (Some r) => r
  end.

Definition translate (table : gmap N (option str)) (s : str) : str :=
  flat_map (translate_char table) s.

(** The number of positions of [s] at which [sub] starts. *)
Fixpoint starts_with (sub s : str) : bool :=
  match sub, s with
  | [], _ => true
  | _ :: _, [] => false
  | a :: sub', b :: s' => (a =? b)%N && starts_with sub' s'
  end.

Fixpoint occurrences (sub s : str) : nat :=
  match s with
  | [] => 0%nat
  | _ :: s' => ((if starts_with sub s then 1 else 0) + occurrences sub s')%nat
  end.

End PyStr.

Import PyStr.

(** The three characters that [get_track] removes from a title:
    U+201C, U+201D and the straight double quote. *)
Definition ldquo : codepoint := 8220%N.
Definition rdquo : codepoint := 8221%N.
Definition dquote : codepoint := 34%N.

Definition unwanted : str := [ldquo; rdquo; dquote].

(** [{ord(i): None for i in unwanted}] *)
Definition unwanted_table : gmap N (option str) :=
  fold_left (fun d i => <[ord i := None]> d) unwanted ∅.

(** ** Exceptions and outcomes *)

Inductive exn : Type :=
| ValueError (msg : str)
| AttributeError (msg : str)
| TypeError (msg : str)
| HTTPError (code : Z)
| URLError (reason : str)
| TimeoutError
| UnicodeDecodeError
| OtherError (name : str).

(** [isinstance(e, HTTPError)], the test of the [except HTTPError:] clause. *)
Definition is_HTTPError (e : exn) : bool :=
  match e with
  | HTTPError _ => true
  | _ => false
  end.

Inductive outcome (A : Type) : Type :=
| Return (a : A)
| Raise (e : exn).
Arguments Return {A} a.
Arguments Raise {A} e.

#[global] Instance outcome_ret : MRet outcome := fun A a => Return a.

#[global] Instance outcome_bind : MBind outcome := fun A B k m =>
  match m with
  | Return a => k a
  | Raise e => Raise e
  end.

(** A list comprehension [[f(x) for x in xs]]: the elements are evaluated
    from left to right and the first exception aborts the comprehension. *)
Fixpoint comprehension {A B} (f : A -> outcome B) (xs : list A) : outcome (list B) :=
  match xs with
  | [] => Return []
  | x :: xs' =>
      y ← f x;
      ys ← comprehension f xs';
      mret (y :: ys)
  end.

(** ** The parsed document

    What the scraper reads of a BeautifulSoup tree: an element has a name,
    the values of its [class] attribute and its contents; a text node is a
    [NavigableString].  The functions below are the library's [descendants],
    [find_all], [find] (also reached as [tag.h2], [tag.ul]) and [string],
    restricted to the ways [pitchfork_scraper.py] calls them. *)

Module bs4.

#[local] Set Warnings "-register-all".

Inductive node : Type :=
| Element (name : str) (classes : list str) (contents : list node)
| NavigableString (s : str).

(** [tag.descendants]: every node below [tag], in document order. *)
Fixpoint descendants (n : node) : list node :=
  match n with
  | NavigableString _ => []
  | Element _ _ cs =>
      (fix go (l : list node) : list node :=
         match l with
         | [] => []
         | c :: l' => c :: descendants c ++ go l'
         end) cs
  end.

Definition has_name (name : str) (n : node) : bool :=
  match n with
  | Element nm _ _ => bool_decide (nm = name)
  | NavigableString _ => false
  end.

(** Matching the multi-valued [class] attribute against a list of wanted
    values: one of the values is wanted, or the whole attribute, its
    values joined by a space, is. *)
Definition class_matches (wanted : list str) (classes : list str) : bool :=
  existsb (fun c => bool_decide (c ∈ wanted)) classes
  || bool_decide (join (lit " ") classes ∈ wanted).

Definition has_class (wanted : list str) (n : node) : bool :=
  match n with
  | Element _ cls _ => class_matches wanted cls
  | NavigableString _ => false
  end.

(** [tag.find_all(name)] *)
Definition find_all (name : str) (n : node) : list node :=
  filter (fun d => has_name name d = true) (descendants n).

(** [tag.find_all(name, {"class": wanted})] *)
Definition find_all_class (name : str) (wanted : list str) (n : node) : list node :=
  filter (fun d => has_name name d && has_class wanted d = true) (descendants n).

(** [tag.find(name)], which is also what [tag.<name>] evaluates to. *)
Definition find (name : str) (n : node) : option node :=
  head (find_all name n).

(** [node.string]: a text node is its own string; an element has a string
    only when it has exactly one child, whose string it is. *)
Fixpoint node_string (n : node) : option str :=
  match n with
  | NavigableString s => Some s
  | Element _ _ [c] => node_string c
  | Element _ _ _ => None
  end.

End bs4.

Import bs4.

(** ** [get_track] *)

Definition record : Type := str * str.

Definition no_attribute (attr : string) : exn :=
  AttributeError (lit "'NoneType' object has no attribute '" ++ lit attr ++ lit "'").

(** [", ".join([artist.string for artist in artist_list])]: [str.join]
    rejects an item that is [None]. *)
Fixpoint join_items (i : nat) (items : list (option str)) : outcome (list str) :=
  match items with
  | [] => Return []
  | None :: _ =>
      Raise (TypeError (lit "sequence item " ++ of_int (Z.of_nat i)
                          ++ lit ": expected str instance, NoneType found"))
  | Some s :: rest =>
      ss ← join_items (S i) rest;
      mret (s :: ss)
  end.

Definition join_opt (sep : str) (items : list (option str)) : outcome str :=
  ss ← join_items 0 items;
  mret (join sep ss).

Definition get_track (item_link : node) : outcome record :=
  match find (lit "h2") item_link with
  | None => Raise (no_attribute "string")
  | Some h2 =>
      match node_string h2 with
      | None => Raise (no_attribute "translate")
      | Some title_raw =>
          let title := translate unwanted_table title_raw in
          match find (lit "ul") item_link with
          | None => Raise (no_attribute "find_all")
          | Some ul =>
              let artist_list := find_all (lit "li") ul in
              artists ← join_opt (lit ", ") (map node_string artist_list);
              mret (title, artists)
          end
      end
  end.

(** ** Argument values

    [scrape_songs] tests its page arguments with [isinstance(_, int)].  The
    instances of [int] are the integers and, [bool] being a subclass of
    [int], the two booleans; everything else fails the test. *)

Inductive pyint : Type :=
| Int (z : Z)
| Bool (b : bool).

Inductive pyval : Type :=
| VInt (i : pyint)
| VFloat (mantissa exponent : Z)
| VStr (s : str)
| VNone.

(** [isinstance(v, int)], returning the instance when there is one. *)
Definition as_int (v : pyval) : option pyint :=
  match v with
  | VInt i => Some i
  | _ => None
  end.

(** The integer an [int] instance compares and adds as. *)
Definition int_of (i : pyint) : Z :=
  match i with
  | Int z => z
  | Bool b => Z.b2z b
  end.

(** [f"{i}"] *)
Definition format (i : pyint) : str :=
  match i with
  | Int z => of_int z
  | Bool true => lit "True"
  | Bool false => lit "False"
  end.

(** ** [scrape_songs] *)

(** What a run does to the outside world, in order: the URLs it opens and
    the lines it prints. *)
Inductive event : Type :=
| Urlopen (url : str)
| Print (line : str).

Definition header : record := (lit "title", lit "artist").

Definition page_url (page_no : pyint) : str :=
  lit "https://pitchfork.com/reviews/best/tracks/?page=" ++ format page_no.

Definition item_classes : list str :=
  [lit "title-link"; lit "track-collection-item__track-link"].

(** The three messages of the source. *)
Definition getting_line (page_no : pyint) : str :=
  lit "Getting tracks from page " ++ format page_no ++ lit "...".

Definition finished_line (page_no : pyint) : str :=
  lit "Finished scraping at page " ++ of_int (int_of page_no - 1) ++ lit ".".

Definition limit_line (end_page : pyint) : str :=
  lit "Page limit " ++ format end_page ++ lit " reached.".

(** [print(...)] under [if verbose:] *)
Definition print_if (verbose : bool) (line : str) : list event :=
  if verbose then [Print line] else [].

Definition bytes := list Byte.byte.

Section Scraper.

(** The libraries the scraper calls: [urllib.request.urlopen], the
    response's [read], [bytes.decode("utf-8")] and
    [BeautifulSoup(_, "html.parser")]. *)
Variable response : Type.
Variable urlopen : str -> outcome response.
Variable read : response -> outcome bytes.
Variable decode : bytes -> outcome str.
Variable BeautifulSoup : str -> node.

(** The body of the loop after the [try] statement: the tracks of one
    opened page. *)
Definition page_tracks (page : response) : outcome (list record) :=
  raw ← read page;
  html ← decode raw;
  let soup := BeautifulSoup html in
  let item_links := find_all_class (lit "a") item_classes soup in
  comprehension get_track item_links.

(** The [while page_no<=end_page: ... else: ...] statement.  [fuel] bounds
    the number of iterations; [None] means the bound was too small. *)
Fixpoint while_loop (fuel : nat) (end_page : pyint) (verbose : bool)
    (page_no : pyint) (all_tracks : list record) (log : list event)
    : option (outcome (list record) * list event) :=
  match fuel with
  | O => None
  | S fuel' =>
      if int_of page_no <=? int_of end_page then
        let url := page_url page_no in
        let log := log ++ [Urlopen url] in
        match urlopen url with
        | Raise e =>
            if is_HTTPError e then
              (* except HTTPError: ... break *)
              let log := log ++ print_if verbose (finished_line page_no) in
              Some (Return all_tracks, log)
            else Some (Raise e, log)
        | Return page =>
            let log := log ++ print_if verbose (getting_line page_no) in
            match page_tracks page with
            | Raise e => Some (Raise e, log)
            | Return tracks =>
                while_loop fuel' end_page verbose
                  (Int (int_of page_no + 1)) (all_tracks ++ tracks) log
            end
        end
      else
        (* else: of the while statement *)
        let log := log ++ print_if verbose (limit_line end_page) in
        Some (Return all_tracks, log)
  end.

(** An upper bound on the number of times the loop condition is tested. *)
Definition iterations (start_page end_page : pyint) : nat :=
  S (Z.to_nat (int_of end_page + 1 - int_of start_page)).

Definition scrape_songs (start_page end_page : pyval) (verbose : bool)
    : option (outcome (list record) * list event) :=
  let all_tracks := [header] in
  match as_int start_page with
  | None => Some (Raise (ValueError (lit "Page number must be an integer.")), [])
  | Some page_no =>
      if int_of page_no <=? 0 then
        Some (Raise (ValueError (lit "First page number must be 1 or higher.")), [])
      else
        match as_int end_page with
        | None => Some (Raise (ValueError (lit "Page number must be an integer.")), [])
        | Some end_page' =>
            if int_of end_page' <? int_of page_no then
              Some (Raise (ValueError
                (lit "Final page number must be higher than the first page number.")), [])
            else
              while_loop (iterations page_no end_page') end_page' verbose
                page_no all_tracks []
        end
  end.

End Scraper.

(** ** Statement vocabulary *)

(** The separator of the artist field. *)
Definition sep : str := lit ", ".

(** The precondition on the page arguments: both are instances of [int],
    the first page is at least 1 and the last page is not before it. *)
Definition valid_range (start_page end_page : pyval) : bool :=
  match as_int start_page, as_int end_page with
  | Some s, Some e => (1 <=? int_of s) && (int_of s <=? int_of e)
  | _, _ => false
  end.

(** An anchor carrying one of the two recognised classes. *)
Definition is_item_link (n : node) : Prop :=
  match n with
  | Element name classes _ =>
      name = lit "a"
      ∧ (lit "title-link" ∈ classes ∨ lit "track-collection-item__track-link" ∈ classes)
  | NavigableString _ => False
  end.

#[global] Instance is_item_link_dec n : Decision (is_item_link n).
Proof. destruct n; simpl; apply _. Defined.

(** An entry that lacks its headline, the headline's text or its list. *)
Definition malformed (item_link : node) : Prop :=
  find (lit "h2") item_link = None
  ∨ (∃ h2, find (lit "h2") item_link = Some h2 ∧ node_string h2 = None)
  ∨ find (lit "ul") item_link = None.

(** The URLs a log records, in order. *)
Fixpoint opened (log : list event) : list str :=
  match log with
  | [] => []
  | Urlopen url :: log' => url :: opened log'
  | Print _ :: log' => opened log'
  end.

(** What the run logs for a page that opens. *)
Definition page_log (verbose : bool) (q : Z) : list event :=
  Urlopen (page_url (Int q)) :: print_if verbose (getting_line (Int q)).

(** Pages [lo], ..., [lo + n - 1] open as [pages q] and hold the tracks
    [recs q]. *)
Definition pages_ok {response : Type} (urlopen : str -> outcome response)
    (tracks_of : response -> outcome (list record))
    (pages : Z -> response) (recs : Z -> list record) (lo n : Z) : Prop :=
  ∀ q, lo <= q < lo + n ->
    urlopen (page_url (Int q)) = Return (pages q) ∧ tracks_of (pages q) = Return (recs q).

(** ** A small site

    A two-entry first page that mixes the two entry templates, for running
    the scraper on: page 1 opens, every later page fails with [failure]. *)

Module Demo.

Definition entry (class : str) (title : str) (artists : list str) : node :=
  Element (lit "a") [class]
    [Element (lit "h2") [] [NavigableString title];
     Element (lit "ul") [lit "artist-list"]
       (map (fun a => Element (lit "li") [] [NavigableString a]) artists)].

Definition document (entries : list node) : node :=
  Element (lit "[document]") []
    [Element (lit "html") []
       [Element (lit "body") []
          (Element (lit "a") [lit "nav-link"] [NavigableString (lit "Reviews")]
             :: entries)]].

(** The headline text of the quoting example: U+201C Song U+201D, a space,
    and Name between straight quotes. *)
Definition quoted_title : str :=
  [ldquo] ++ lit "Song" ++ [rdquo] ++ lit " " ++ [dquote] ++ lit "Name" ++ [dquote].

Definition first_entry : node :=
  entry (lit "title-link") quoted_title [lit "Duo One"; lit "Duo Two"].

Definition second_entry : node :=
  entry (lit "track-collection-item__track-link") (lit "Other") [lit "Solo"].

(** An entry whose single artist has a comma in the name. *)
Definition comma_entry : node :=
  entry (lit "title-link") (lit "Earfquake") [lit "Tyler, the Creator"].

(** An entry without artists, and entries that lack a part. *)
Definition no_artist_entry : node :=
  entry (lit "title-link") (lit "Untitled") [].

Definition no_headline_entry : node :=
  Element (lit "a") [lit "title-link"]
    [Element (lit "ul") [] [Element (lit "li") [] [NavigableString (lit "Solo")]]].

Definition page1 : node := document [first_entry; second_entry].

Definition response : Type := Z.

Definition urlopen (failure : exn) (url : str) : outcome response :=
  if bool_decide (url = page_url (Int 1)) then Return 1 else Raise failure.

Definition read (page : response) : outcome bytes :=
  Return (list_byte_of_string "page01").

(** Decoding, for bodies that are plain ASCII. *)
Definition decode (raw : bytes) : outcome str :=
  if forallb (fun b => (Byte.to_N b <? 128)%N) raw
  then Return (map Byte.to_N raw)
  else Raise UnicodeDecodeError.

Definition BeautifulSoup (html : str) : node :=
  if bool_decide (html = lit "page01") then page1 else document [].

Definition pages (q : Z) : response := q.

Definition recs (q : Z) : list record :=
  [(lit "Song Name", lit "Duo One, Duo Two"); (lit "Other", lit "Solo")].

Definition run (failure : exn) (start_page end_page : Z) (verbose : bool) :=
  scrape_songs response (urlopen failure) read decode BeautifulSoup
    (VInt (Int start_page)) (VInt (Int end_page)) verbose.

End Demo.

(** ** The script

    After its two functions the module runs
    [songs = scrape_songs()] and writes [songs] with [json.dump] to
    [songs.json]. *)

Module Json.

(** One lower-case hexadecimal digit. *)
Definition hex_digit (d : N) : codepoint :=
  (if d <? 10 then 48 + d else 87 + d)%N.

(** [format(n, "04x")] for [n] below [0x10000]: four hexadecimal digits. *)
Definition hex4 (n : N) : str :=
  [hex_digit ((n / 4096) mod 16); hex_digit ((n / 256) mod 16);
   hex_digit ((n / 16) mod 16); hex_digit (n mod 16)]%N.

Definition backslash : codepoint := 92%N.

(** The replacement of one character in a string written with
    [ensure_ascii], the default of [json.dump]: the backslash, the double
    quote and everything outside the range from the space to the tilde is
    escaped; a character above U+FFFF is written as a surrogate pair. *)
Definition escape_char (c : codepoint) : str :=
  (if c =? 92 then [backslash; backslash]
   else if c =? 34 then [backslash; dquote]
   else if c =? 8 then backslash :: lit "b"
   else if c =? 12 then backslash :: lit "f"
   else if c =? 10 then backslash :: lit "n"
   else if c =? 13 then backslash :: lit "r"
   else if c =? 9 then backslash :: lit "t"
   else if c <? 32 then backslash :: (lit "u" ++ hex4 c)
   else if c <=? 126 then [c]
   else if c <? 65536 then backslash :: (lit "u" ++ hex4 c)
   else
     let n := c - 65536 in
     let s1 := N.lor 55296 (N.land (N.shiftr n 10) 1023) in
     let s2 := N.lor 56320 (N.land n 1023) in
     (backslash :: (lit "u" ++ hex4 s1)) ++ (backslash :: (lit "u" ++ hex4 s2)))%N.

(** A [str] as a JSON string. *)
Definition encode_str (s : str) : str :=
  [dquote] ++ flat_map escape_char s ++ [dquote].

(** A 2-tuple of strings is written as an array of two strings. *)
Definition encode_record (r : record) : str :=
  lit "[" ++ encode_str r.1 ++ lit ", " ++ encode_str r.2 ++ lit "]".

(** [json.dumps(songs)], the text [json.dump(songs, outfile)] writes. *)
Definition dumps (songs : list record) : str :=
  lit "[" ++ join (lit ", ") (map encode_record songs) ++ lit "]".

End Json.

Section Script.

Variable response : Type.
Variable urlopen : str -> outcome response.
Variable read : response -> outcome bytes.
Variable decode : bytes -> outcome str.
Variable BeautifulSoup : str -> node.

(** The statements at the end of the module, run on the files [fs] of the
    working directory (names to contents): [scrape_songs()] takes its
    defaults, first page 1, last page 300, verbose; the file is opened for
    writing only after [scrape_songs] has returned, and the write itself is
    taken to succeed. *)
Definition script (fs : gmap (list N) (list N))
    : option (outcome unit * list event * gmap (list N) (list N)) :=
  match scrape_songs response urlopen read decode BeautifulSoup
          (VInt (Int 1)) (VInt (Int 300)) true with
  | None => None
  | Some (Raise e, log) => Some (Raise e, log, fs)
  | Some (Return songs, log) =>
      Some (Return (), log, <[lit "songs.json" := Json.dumps songs]> fs)
  end.

End Script.

(** ** More statement vocabulary *)

(** A title from which the three characters are gone. *)
Definition clean_title (r : record) : Prop :=
  (ldquo ∉ r.1) ∧ (rdquo ∉ r.1) ∧ (dquote ∉ r.1).

(** The two lines that [scrape_songs] prints when it stops. *)
Definition summary (ev : event) : Prop :=
  ∃ i, ev = Print (finished_line i) ∨ ev = Print (limit_line i).

(** The exception of [str.join] for an item, at index [i], that is [None]. *)
Definition not_a_str (i : nat) : exn :=
  TypeError (lit "sequence item " ++ of_int (Z.of_nat i)
               ++ lit ": expected str instance, NoneType found").

(** A printable ASCII character. *)
Definition printable (c : codepoint) : Prop := (32 <= c)%N ∧ (c <= 126)%N.

(** ** A site with a broken page

    The small site again, but every page parses to a document whose second
    entry has no headline. *)

Module Broken.

Definition BeautifulSoup (html : str) : node :=
  Demo.document [Demo.first_entry; Demo.no_headline_entry].

Definition run (start_page end_page : Z) (verbose : bool) :=
  scrape_songs Demo.response (Demo.urlopen (HTTPError 404)) Demo.read Demo.decode
    BeautifulSoup (VInt (Int start_page)) (VInt (Int end_page)) verbose.

End Broken.

(** * Properties of the string operations *)

Lemma unwanted_table_lookup (c : codepoint) :
  unwanted_table !! c = if bool_decide (c ∈ unwanted) then Some None else None.
Proof.
  unfold unwanted_table, unwanted, ord; simpl.
  rewrite !lookup_insert, lookup_empty.
  repeat case_decide; subst; try reflexivity;
    case_bool_decide as Hin; try reflexivity;
    repeat (apply elem_of_cons in Hin as [Hin | Hin]; [congruence |]);
    try (apply elem_of_nil in Hin; contradiction);
    exfalso; apply Hin; set_solver.
Qed.

Lemma translate_char_unwanted (c : codepoint) :
  translate_char unwanted_table c = if bool_decide (c ∈ unwanted) then [] else [c].
Proof.
  unfold translate_char, ord. rewrite unwanted_table_lookup.
  by case_bool_decide.
Qed.

Lemma translate_unwanted_filter (s : str) :
  translate unwanted_table s = filter (fun c => c ∉ unwanted) s.
Proof.
  induction s as [| c s IH]; [reflexivity |].
  unfold translate in *. cbn [flat_map].
  rewrite IH, translate_char_unwanted, filter_cons.
  case_bool_decide; case_decide; done.
Qed.

Lemma starts_with_sep_app (c : codepoint) (x y : str) :
  starts_with sep (c :: x ++ sep ++ y) = starts_with sep (c :: x).
Proof.
  unfold sep; simpl. destruct x as [| d x]; simpl.
  - by destruct (44 =? c)%N.
  - reflexivity.
Qed.

Lemma occurrences_app_sep (x y : str) :
  occurrences sep (x ++ sep ++ y)
  = (occurrences sep x + 1 + occurrences sep y)%nat.
Proof.
  induction x as [| c x IH].
  - reflexivity.
  - change ((c :: x) ++ sep ++ y) with (c :: x ++ sep ++ y).
    cbn [occurrences]. rewrite starts_with_sep_app, IH. lia.
Qed.

Lemma occurrences_join (names : list str) :
  occurrences sep (join sep names)
  = (length names - 1 + list_sum (map (occurrences sep) names))%nat.
Proof.
  induction names as [| x [| y rest] IH].
  - reflexivity.
  - simpl. lia.
  - change (join sep (x :: y :: rest)) with (x ++ sep ++ join sep (y :: rest)).
    rewrite occurrences_app_sep, IH. simpl. lia.
Qed.

Lemma join_items_Some (i : nat) (names : list str) :
  join_items i (map Some names) = Return names.
Proof.
  revert i. induction names as [| x names IH]; intros i; simpl; [reflexivity |].
  by rewrite IH.
Qed.

(** * Properties of [get_track] *)

Lemma get_track_well_formed (item_link h2 ul : node) (title_raw : str) (names : list str) :
  find (lit "h2") item_link = Some h2 ->
  node_string h2 = Some title_raw ->
  find (lit "ul") item_link = Some ul ->
  map node_string (find_all (lit "li") ul) = map Some names ->
  get_track item_link = Return (translate unwanted_table title_raw, join sep names).
Proof.
  intros Hh2 Hraw Hul Hli. unfold get_track, join_opt.
  rewrite Hh2, Hraw, Hul, Hli, join_items_Some. reflexivity.
Qed.

(** C7. When [get_track] returns a record for an entry whose headline text is
    [title_raw], the title of the record is [title_raw] with every occurrence
    of U+201C, U+201D and the straight double quote deleted: all other
    characters are kept, in their order, and nothing is put in the place of
    a deleted one. *)
Theorem get_track_title (item_link h2 : node) (title_raw : str) (r : record) :
  find (lit "h2") item_link = Some h2 ->
  node_string h2 = Some title_raw ->
  get_track item_link = Return r ->
  r.1 = filter (fun c => c ≠ ldquo ∧ c ≠ rdquo ∧ c ≠ dquote) title_raw.
Proof.
  intros Hh2 Hraw. unfold get_track. rewrite Hh2, Hraw.
  destruct (find (lit "ul") item_link) as [ul |]; [| discriminate].
  destruct (join_opt _ _) as [artists | e]; simpl; [| discriminate].
  intros [= <-]; simpl.
  rewrite translate_unwanted_filter. apply list_filter_iff.
  intros c. unfold unwanted. rewrite !not_elem_of_cons. 
  pose proof (not_elem_of_nil c). tauto.
Qed.

(** C9. Removing the unwanted characters twice is the same as removing them
    once. *)
Theorem translate_unwanted_idempotent (s : str) :
  translate unwanted_table (translate unwanted_table s) = translate unwanted_table s.
Proof.
  rewrite !translate_unwanted_filter.
  induction s as [| c s IH]; [reflexivity |].
  rewrite filter_cons. case_decide as Hc; [| exact IH].
  rewrite filter_cons. case_decide; [| contradiction].
  by rewrite IH.
Qed.

(** C6, as amended.  For an entry with a headline text and a list whose [k]
    items each have a text, [get_track] returns a record whose artist field is
    the [k] texts joined in document order by [", "]; the field contains
    [k-1] separators plus the occurrences of [", "] inside the texts
    themselves, hence exactly [k-1] when no text contains [", "] and [k] is
    at least 1; for [k = 0] the record is returned with an empty artist
    field. *)
Theorem get_track_artists (item_link h2 ul : node) (title_raw : str) (names : list str) :
  find (lit "h2") item_link = Some h2 ->
  node_string h2 = Some title_raw ->
  find (lit "ul") item_link = Some ul ->
  map node_string (find_all (lit "li") ul) = map Some names ->
  ∃ title artists,
    get_track item_link = Return (title, artists)
    ∧ artists = join sep names
    ∧ occurrences sep artists
      = (length names - 1 + list_sum (map (occurrences sep) names))%nat
    ∧ (Forall (fun name => occurrences sep name = 0%nat) names ->
       (1 <= length names)%nat ->
       (occurrences sep artists + 1 = length names)%nat)
    ∧ (names = [] -> artists = []).
Proof.
  intros Hh2 Hraw Hul Hli.
  exists (translate unwanted_table title_raw), (join sep names).
  split; [by eapply get_track_well_formed |].
  split; [reflexivity |].
  split; [apply occurrences_join |].
  split.
  - intros Hnone Hk. rewrite occurrences_join.
    assert (list_sum (map (occurrences sep) names) = 0%nat) as ->; [| lia].
    clear -Hnone. induction Hnone as [| x l Hx _ IH]; simpl; [reflexivity | lia].
  - intros ->. reflexivity.
Qed.

(** C8. An entry without a headline, without a headline text or without a
    list makes [get_track] raise [AttributeError]; no record is returned,
    and a comprehension over entries that contains such an entry raises
    instead of leaving the entry out. *)
Theorem get_track_malformed (item_link : node) :
  malformed item_link ->
  (∃ msg, get_track item_link = Raise (AttributeError msg))
  ∧ (∀ links, item_link ∈ links -> ∃ e, comprehension get_track links = Raise e).
Proof.
  intros Hbad.
  assert (∃ msg, get_track item_link = Raise (AttributeError msg)) as Hraise.
  { unfold get_track, no_attribute.
    destruct Hbad as [Hh2 | [(h2 & Hh2 & Hraw) | Hul]].
    - rewrite Hh2. eauto.
    - rewrite Hh2, Hraw. eauto.
    - destruct (find (lit "h2") item_link) as [h2 |]; [| eauto].
      destruct (node_string h2); [| eauto].
      rewrite Hul. eauto. }
  split; [exact Hraise |].
  destruct Hraise as [msg Hmsg].
  intros links Hin. induction links as [| l links IH]; [by apply elem_of_nil in Hin |].
  simpl. apply elem_of_cons in Hin as [<- | Hin].
  - rewrite Hmsg. simpl. eauto.
  - destruct (get_track l) as [y | e]; simpl; [| eauto].
    destruct (IH Hin) as [e ->]. simpl. eauto.
Qed.

(** * Properties of the entry query *)

Lemma item_class_shape (w : str) : w ∈ item_classes -> w ≠ [] ∧ 32%N ∉ w.
Proof.
  unfold item_classes. intros Hw.
  apply elem_of_cons in Hw as [-> | Hw]; [| apply list_elem_of_singleton in Hw as ->].
  - split; [discriminate | compute_done].
  - split; [discriminate | compute_done].
Qed.

Lemma class_matches_item_classes (classes : list str) :
  class_matches item_classes classes = true
  ↔ lit "title-link" ∈ classes ∨ lit "track-collection-item__track-link" ∈ classes.
Proof.
  assert (∀ c, c ∈ item_classes
               ↔ c = lit "title-link" ∨ c = lit "track-collection-item__track-link") as Hwanted.
  { intros c. unfold item_classes. rewrite elem_of_cons, list_elem_of_singleton. tauto. }
  unfold class_matches.
  rewrite orb_true_iff, existsb_exists, bool_decide_eq_true. split.
  - intros [(c & Hin & Hc) | Hjoin].
    + apply bool_decide_eq_true in Hc. apply list_elem_of_In in Hin.
      apply Hwanted in Hc as [-> | ->]; tauto.
    + destruct (item_class_shape _ Hjoin) as [Hne Hspace].
      destruct classes as [| x [| y rest]].
      * contradiction.
      * simpl in Hjoin. apply Hwanted in Hjoin as [-> | ->]; [left | right]; apply list_elem_of_here.
      * exfalso. apply Hspace. simpl. rewrite elem_of_app. right. apply list_elem_of_here.
  - intros [Hin | Hin]; left; eexists; (split; [apply list_elem_of_In; exact Hin |]);
      apply bool_decide_eq_true, Hwanted; tauto.
Qed.

(** The query of [scrape_songs] selects the anchors that carry one of the
    two classes, and lists them in document order. *)
Lemma find_all_item_links (soup : node) :
  find_all_class (lit "a") item_classes soup = filter is_item_link (descendants soup).
Proof.
  unfold find_all_class. apply list_filter_iff. intros n.
  destruct n as [name classes contents | text]; simpl.
  - rewrite andb_true_iff, bool_decide_eq_true, class_matches_item_classes. reflexivity.
  - split; [discriminate | contradiction].
Qed.

Lemma comprehension_Forall2 {A B} (f : A -> outcome B) (xs : list A) (ys : list B) :
  comprehension f xs = Return ys -> Forall2 (fun x y => f x = Return y) xs ys.
Proof.
  revert ys. induction xs as [| x xs IH]; intros ys; simpl.
  - intros [= <-]. constructor.
  - destruct (f x) as [y | e] eqn:Hx; simpl; [| discriminate].
    destruct (comprehension f xs) as [ys' | e]; simpl; [| discriminate].
    intros [= <-]. constructor; [exact Hx | by apply IH].
Qed.

(** * Properties of [scrape_songs] *)

Lemma opened_app (l1 l2 : list event) : opened (l1 ++ l2) = opened l1 ++ opened l2.
Proof.
  induction l1 as [| [url | line] l1 IH]; simpl; [reflexivity | by rewrite IH | exact IH].
Qed.

Section ScraperProperties.

Context {response : Type}.
Variable urlopen : str -> outcome response.
Variable read : response -> outcome bytes.
Variable decode : bytes -> outcome str.
Variable BeautifulSoup : str -> node.

(** The functions of the scraper at these libraries. *)
Local Abbreviation tracks_of := (page_tracks response read decode BeautifulSoup).
Local Abbreviation loop := (while_loop response urlopen read decode BeautifulSoup).
Local Abbreviation scrape := (scrape_songs response urlopen read decode BeautifulSoup).

(** The loop returns once it has enough fuel: the distance to [end_page]
    shrinks with every iteration. *)
Lemma while_loop_total (fuel : nat) (end_page : pyint) (verbose : bool)
    (page_no : pyint) (all_tracks : list record) (log : list event) :
  (Z.to_nat (int_of end_page + 1 - int_of page_no) < fuel)%nat ->
  is_Some (loop fuel end_page verbose page_no all_tracks log).
Proof.
  revert page_no all_tracks log.
  induction fuel as [| fuel IH]; intros page_no all_tracks log Hfuel; [lia |].
  simpl.
  destruct (Z.leb_spec (int_of page_no) (int_of end_page)) as [Hle | Hgt]; [| eauto].
  destruct (urlopen (page_url page_no)) as [page | e].
  - destruct (tracks_of page) as [tracks | e]; [| eauto].
    apply IH. simpl. lia.
  - destruct (is_HTTPError e); eauto.
Qed.

Lemma scrape_songs_terminates (start_page end_page : pyval) (verbose : bool) :
  is_Some (scrape start_page end_page verbose).
Proof.
  unfold scrape_songs.
  destruct (as_int start_page) as [s |]; [| eauto].
  destruct (int_of s <=? 0); [eauto |].
  destruct (as_int end_page) as [e |]; [| eauto].
  destruct (int_of e <? int_of s); [eauto |].
  apply while_loop_total. unfold iterations. lia.
Qed.

(** The loop only ever appends to [all_tracks]. *)
Lemma while_loop_extends (fuel : nat) (end_page : pyint) (verbose : bool)
    (page_no : pyint) (all_tracks : list record) (log : list event)
    (tracks : list record) (log' : list event) :
  loop fuel end_page verbose page_no all_tracks log = Some (Return tracks, log') ->
  ∃ rest, tracks = all_tracks ++ rest.
Proof.
  revert page_no all_tracks log.
  induction fuel as [| fuel IH]; intros page_no all_tracks log; [discriminate |].
  simpl.
  destruct (int_of page_no <=? int_of end_page).
  - destruct (urlopen (page_url page_no)) as [page | e].
    + destruct (tracks_of page) as [new | e]; [| discriminate].
      intros H. apply IH in H as [rest ->].
      exists (new ++ rest). by rewrite app_assoc.
    + destruct (is_HTTPError e); [| discriminate].
      intros [= <- _]. exists []. by rewrite app_nil_r.
  - intros [= <- _]. exists []. by rewrite app_nil_r.
Qed.

(** Pages that open and parse are consumed one per iteration. *)
Lemma while_loop_pages_ok (pages : Z -> response) (recs : Z -> list record) (n : nat) :
  ∀ (fuel : nat) (end_page : pyint) (verbose : bool) (page_no : Z)
    (all_tracks : list record) (log : list event),
  pages_ok urlopen tracks_of pages recs page_no (Z.of_nat n) ->
  page_no + Z.of_nat n <= int_of end_page + 1 ->
  loop (n + fuel) end_page verbose (Int page_no) all_tracks log
  = loop fuel end_page verbose (Int (page_no + Z.of_nat n))
      (all_tracks ++ concat (map recs (seqZ page_no (Z.of_nat n))))
      (log ++ concat (map (page_log verbose) (seqZ page_no (Z.of_nat n)))).
Proof.
  induction n as [| n IH]; intros fuel end_page verbose page_no all_tracks log Hok Hend.
  - simpl. by rewrite Z.add_0_r, !app_nil_r.
  - destruct (Hok page_no ltac:(lia)) as [Hopen Htracks].
    change (S n + fuel)%nat with (S (n + fuel)).
    cbn [while_loop int_of].
    destruct (Z.leb_spec page_no (int_of end_page)) as [_ | Hgt]; [| lia].
    rewrite Hopen, Htracks.
    rewrite IH.
    + rewrite (seqZ_cons page_no (Z.of_nat (S n))) by lia.
      replace (Z.pred (Z.of_nat (S n))) with (Z.of_nat n) by lia.
      replace (Z.succ page_no) with (page_no + 1) by lia.
      replace (page_no + 1 + Z.of_nat n) with (page_no + Z.of_nat (S n)) by lia.
      cbn [map concat]. unfold page_log at 2.
      by rewrite <- !app_assoc.
    + intros q Hq. apply Hok. lia.
    + lia.
Qed.

(** A run over a valid range whose pages [s], ..., [p - 1] open and parse
    reaches the loop test for page [p] with their tracks accumulated. *)
Lemma scrape_songs_pages_ok (pages : Z -> response) (recs : Z -> list record)
    (s e p : Z) (verbose : bool) :
  1 <= s -> s <= e -> s <= p -> p <= e + 1 ->
  pages_ok urlopen tracks_of pages recs s (p - s) ->
  scrape (VInt (Int s)) (VInt (Int e)) verbose
  = loop (S (Z.to_nat (e + 1 - p))) (Int e) verbose (Int p)
      (header :: concat (map recs (seqZ s (p - s))))
      (concat (map (page_log verbose) (seqZ s (p - s)))).
Proof.
  intros Hs Hse Hsp Hpe Hok.
  unfold scrape_songs; cbn [as_int int_of].
  destruct (Z.leb_spec s 0) as [? | _]; [lia |].
  destruct (Z.ltb_spec e s) as [? | _]; [lia |].
  unfold iterations; cbn [int_of].
  replace (S (Z.to_nat (e + 1 - s)))
    with (Z.to_nat (p - s) + S (Z.to_nat (e + 1 - p)))%nat by lia.
  pose proof (while_loop_pages_ok pages recs (Z.to_nat (p - s))
                (S (Z.to_nat (e + 1 - p))) (Int e) verbose s [header] []) as Hloop.
  rewrite Z2Nat.id in Hloop by lia.
  replace (s + (p - s)) with p in Hloop by lia.
  apply Hloop; [exact Hok | simpl; lia].
Qed.

Lemma while_loop_log_extends (fuel : nat) (end_page : pyint) (verbose : bool)
    (page_no : pyint) (all_tracks : list record) (log : list event)
    (r : outcome (list record)) (log' : list event) :
  loop fuel end_page verbose page_no all_tracks log = Some (r, log') ->
  ∃ more, log' = log ++ more.
Proof.
  revert page_no all_tracks log.
  induction fuel as [| fuel IH]; intros page_no all_tracks log; [discriminate |].
  simpl.
  destruct (int_of page_no <=? int_of end_page).
  - destruct (urlopen (page_url page_no)) as [page | e].
    + destruct (tracks_of page) as [new | e].
      * intros H. apply IH in H as [more ->]. rewrite <- !app_assoc. eauto.
      * intros [= _ <-]. rewrite <- !app_assoc. eauto.
    + destruct (is_HTTPError e); intros [= _ <-]; rewrite <- ?app_assoc; eauto.
  - intros [= _ <-]. eauto.
Qed.

(** What [verbose] changes in a run of the loop is the printed lines. *)
Lemma while_loop_verbose (fuel : nat) (end_page page_no : pyint)
    (all_tracks : list record) (log_v log_q : list event) :
  log_q = map Urlopen (opened log_v) ->
  match loop fuel end_page true page_no all_tracks log_v with
  | Some (r, log_v') =>
      loop fuel end_page false page_no all_tracks log_q
      = Some (r, map Urlopen (opened log_v'))
  | None => loop fuel end_page false page_no all_tracks log_q = None
  end.
Proof.
  revert page_no all_tracks log_v log_q.
  induction fuel as [| fuel IH]; intros page_no all_tracks log_v log_q ->; [reflexivity |].
  simpl.
  destruct (int_of page_no <=? int_of end_page).
  - destruct (urlopen (page_url page_no)) as [page | e].
    + destruct (tracks_of page) as [new | e].
      * apply IH. rewrite app_nil_r, !opened_app, app_nil_r, map_app. reflexivity.
      * rewrite app_nil_r, !opened_app, app_nil_r, map_app. reflexivity.
    + destruct (is_HTTPError e);
        rewrite ?app_nil_r, !opened_app, ?app_nil_r, map_app; reflexivity.
  - rewrite app_nil_r, opened_app, app_nil_r. reflexivity.
Qed.

(** C1. In a run over a valid range in which pages [s], ..., [p - 1] open and
    parse and [urlopen] raises [HTTPError] (with any status code, 404
    included) for page [p], [scrape_songs] returns, without raising, the
    header followed by the tracks of pages [s], ..., [p - 1] in page order;
    page [p] is the last URL it opens. *)
Theorem scrape_songs_not_found (pages : Z -> response) (recs : Z -> list record)
    (s e p code : Z) (verbose : bool) :
  1 <= s -> s <= p -> p <= e ->
  pages_ok urlopen tracks_of pages recs s (p - s) ->
  urlopen (page_url (Int p)) = Raise (HTTPError code) ->
  scrape (VInt (Int s)) (VInt (Int e)) verbose
  = Some (Return (header :: concat (map recs (seqZ s (p - s)))),
          concat (map (page_log verbose) (seqZ s (p - s)))
            ++ Urlopen (page_url (Int p)) :: print_if verbose (finished_line (Int p))).
Proof.
  intros Hs Hsp Hpe Hok Hfail.
  rewrite (scrape_songs_pages_ok pages recs s e p) by (done || lia).
  cbn [while_loop int_of].
  destruct (Z.leb_spec p e) as [_ | ?]; [| lia].
  rewrite Hfail. cbn [is_HTTPError]. by rewrite <- app_assoc.
Qed.

(** C2, as amended.  In a run over a valid range in which pages [s], ...,
    [p - 1] open and parse and [urlopen] raises, for page [p], an exception
    that is not an [HTTPError], [scrape_songs] raises that same exception;
    page [p] was opened once and nothing else was done after it. *)
Theorem scrape_songs_transport_failure (pages : Z -> response) (recs : Z -> list record)
    (s e p : Z) (failure : exn) (verbose : bool) :
  1 <= s -> s <= p -> p <= e ->
  pages_ok urlopen tracks_of pages recs s (p - s) ->
  urlopen (page_url (Int p)) = Raise failure ->
  is_HTTPError failure = false ->
  scrape (VInt (Int s)) (VInt (Int e)) verbose
  = Some (Raise failure,
          concat (map (page_log verbose) (seqZ s (p - s))) ++ [Urlopen (page_url (Int p))]).
Proof.
  intros Hs Hsp Hpe Hok Hfail Hkind.
  rewrite (scrape_songs_pages_ok pages recs s e p) by (done || lia).
  cbn [while_loop int_of].
  destruct (Z.leb_spec p e) as [_ | ?]; [| lia].
  by rewrite Hfail, Hkind.
Qed.

(** C3. The page arguments are checked before anything is opened: unless
    both are instances of [int] with [1 <= start_page <= end_page],
    [scrape_songs] raises [ValueError] and its log is empty; when they are,
    equal pages included, the run goes on to open the first page. *)
Theorem scrape_songs_validates (start_page end_page : pyval) (verbose : bool) :
  (valid_range start_page end_page = false ->
   ∃ msg, scrape start_page end_page verbose = Some (Raise (ValueError msg), []))
  ∧ (valid_range start_page end_page = true ->
     ∃ s r log, as_int start_page = Some s
                ∧ scrape start_page end_page verbose
                  = Some (r, Urlopen (page_url s) :: log)).
Proof.
  unfold valid_range, scrape_songs.
  destruct (as_int start_page) as [s |]; [| split; [eauto | discriminate]].
  destruct (Z.leb_spec (int_of s) 0) as [Hs | Hs].
  { split; [eauto |]. destruct (as_int end_page); [| discriminate].
    intros [H _]%andb_true_iff. apply Z.leb_le in H. lia. }
  destruct (as_int end_page) as [e |]; [| split; [eauto | discriminate]].
  destruct (Z.ltb_spec (int_of e) (int_of s)) as [He | He].
  { split; [eauto |]. intros [_ H]%andb_true_iff. apply Z.leb_le in H. lia. }
  split.
  { intros [H | H]%andb_false_iff; apply Z.leb_gt in H; lia. }
  intros _. exists s.
  unfold iterations. simpl.
  destruct (Z.leb_spec (int_of s) (int_of e)) as [_ | ?]; [| lia].
  destruct (urlopen (page_url s)) as [page | exc].
  - destruct (tracks_of page) as [new | exc]; [| eauto].
    match goal with
    | |- context [while_loop _ _ _ _ _ ?fuel ?ep ?v ?pn ?acc ?lg] =>
        destruct (while_loop_total fuel ep v pn acc lg) as [[r log] Hrun]; [simpl; lia |]
    end.
    rewrite Hrun. apply while_loop_log_extends in Hrun as [more ->]. eauto.
  - destruct (is_HTTPError exc); eauto.
Qed.

(** C4. Every run of [scrape_songs] ends, and a run that returns normally
    returns a list whose first element is the header
    [("title", "artist")]. *)
Theorem scrape_songs_header (start_page end_page : pyval) (verbose : bool) :
  ∃ r log,
    scrape start_page end_page verbose = Some (r, log)
    ∧ ∀ tracks, r = Return tracks -> head tracks = Some header.
Proof.
  destruct (scrape_songs_terminates start_page end_page verbose) as [[r log] Hrun].
  exists r, log. split; [exact Hrun |].
  intros tracks ->. revert Hrun. unfold scrape_songs.
  destruct (as_int start_page) as [s |]; [| discriminate].
  destruct (int_of s <=? 0); [discriminate |].
  destruct (as_int end_page) as [e |]; [| discriminate].
  destruct (int_of e <? int_of s); [discriminate |].
  intros [rest ->]%while_loop_extends. reflexivity.
Qed.

(** C5. In a run over a valid range whose pages [s], ..., [p - 1] open and
    parse and which ends at page [p] (by the page limit or by an
    [HTTPError]), the result is the header followed by the tracks of the
    pages in page order, and the tracks of each page are the records of
    exactly the anchors of the page that carry the class [title-link] or the
    class [track-collection-item__track-link], one record per anchor, in the
    document order of the anchors. *)
Theorem scrape_songs_document_order (pages : Z -> response) (recs : Z -> list record)
    (s e p : Z) (verbose : bool) :
  1 <= s -> s <= e -> s <= p -> p <= e + 1 ->
  pages_ok urlopen tracks_of pages recs s (p - s) ->
  (p = e + 1 ∨ ∃ code, urlopen (page_url (Int p)) = Raise (HTTPError code)) ->
  (∃ log, scrape (VInt (Int s)) (VInt (Int e)) verbose
          = Some (Return (header :: concat (map recs (seqZ s (p - s)))), log))
  ∧ ∀ q, s <= q < p ->
      ∃ raw html,
        read (pages q) = Return raw
        ∧ decode raw = Return html
        ∧ Forall2 (fun item_link r => get_track item_link = Return r)
            (filter is_item_link (descendants (BeautifulSoup html))) (recs q).
Proof.
  intros Hs Hse Hsp Hpe Hok Hend. split.
  - rewrite (scrape_songs_pages_ok pages recs s e p) by (done || lia).
    cbn [while_loop int_of].
    destruct (Z.leb_spec p e) as [Hle | _]; [| eauto].
    destruct Hend as [-> | [code Hfail]]; [lia |].
    rewrite Hfail. cbn [is_HTTPError]. eauto.
  - intros q Hq. destruct (Hok q ltac:(lia)) as [_ Htracks].
    unfold page_tracks in Htracks.
    destruct (read (pages q)) as [raw | exc] eqn:Hread; simpl in Htracks; [| discriminate].
    destruct (decode raw) as [html | exc] eqn:Hdecode; simpl in Htracks; [| discriminate].
    exists raw, html. split; [reflexivity |]. split; [exact Hdecode |].
    rewrite <- find_all_item_links. by apply comprehension_Forall2.
Qed.

(** C10. The two settings of [verbose] give the same outcome (the same list
    of tracks, or the same exception); the quiet run opens the same URLs in
    the same order, and its log is the log of the verbose run without the
    printed lines. *)
Theorem scrape_songs_verbose_independent (start_page end_page : pyval) :
  ∃ r log_v log_q,
    scrape start_page end_page true = Some (r, log_v)
    ∧ scrape start_page end_page false = Some (r, log_q)
    ∧ log_q = map Urlopen (opened log_v).
Proof.
  destruct (scrape_songs_terminates start_page end_page true) as [[r log_v] Hrun].
  exists r, log_v, (map Urlopen (opened log_v)).
  split; [exact Hrun |]. split; [| reflexivity].
  revert Hrun. unfold scrape_songs.
  destruct (as_int start_page) as [s |]; [| by intros [= <- <-]].
  destruct (int_of s <=? 0); [by intros [= <- <-] |].
  destruct (as_int end_page) as [e |]; [| by intros [= <- <-]].
  destruct (int_of e <? int_of s); [by intros [= <- <-] |].
  intros Hrun.
  pose proof (while_loop_verbose (iterations s e) e s [header] [] [] eq_refl) as Hq.
  rewrite Hrun in Hq. exact Hq.
Qed.

End ScraperProperties.

(** * The scraper on the small site *)

Lemma demo_pages_ok (failure : exn) :
  pages_ok (Demo.urlopen failure)
    (page_tracks Demo.response Demo.read Demo.decode Demo.BeautifulSoup)
    Demo.pages Demo.recs 1 (2 - 1).
Proof.
  intros q Hq. assert (q = 1) as -> by lia.
  split; vm_compute; reflexivity.
Qed.

(** Page 2 answers 404: the run returns the header and the tracks of
    page 1, and opens nothing after page 2. *)
Lemma scrape_songs_not_found_witness :
  Demo.run (HTTPError 404) 1 3 true
  = Some (Return [header; (lit "Song Name", lit "Duo One, Duo Two"); (lit "Other", lit "Solo")],
          [Urlopen (page_url (Int 1)); Print (getting_line (Int 1));
           Urlopen (page_url (Int 2)); Print (finished_line (Int 2))]).
Proof.
  apply (scrape_songs_not_found (Demo.urlopen (HTTPError 404)) Demo.read Demo.decode
           Demo.BeautifulSoup Demo.pages Demo.recs 1 3 2 404 true);
    [lia | lia | lia | apply demo_pages_ok | reflexivity].
Defined.

(** Page 2 times out: the run raises the [URLError]. *)
Lemma scrape_songs_transport_failure_witness :
  Demo.run (URLError (lit "timed out")) 1 3 true
  = Some (Raise (URLError (lit "timed out")),
          [Urlopen (page_url (Int 1)); Print (getting_line (Int 1));
           Urlopen (page_url (Int 2))]).
Proof.
  apply (scrape_songs_transport_failure (Demo.urlopen (URLError (lit "timed out")))
           Demo.read Demo.decode Demo.BeautifulSoup Demo.pages Demo.recs 1 3 2
           (URLError (lit "timed out")) true);
    [lia | lia | lia | apply demo_pages_ok | reflexivity | reflexivity].
Defined.

(** Page 2 answers 503, a failure other than "not found": the run does not
    raise, it returns the tracks of page 1 as if the listing had ended. *)
Lemma scrape_songs_http_5xx_counterexample :
  Demo.urlopen (HTTPError 503) (page_url (Int 2)) = Raise (HTTPError 503)
  ∧ Demo.run (HTTPError 503) 1 3 false
    = Some (Return [header; (lit "Song Name", lit "Duo One, Duo Two"); (lit "Other", lit "Solo")],
            [Urlopen (page_url (Int 1)); Urlopen (page_url (Int 2))]).
Proof. split; vm_compute; reflexivity. Qed.

(** [scrape_songs(5, 3)] and [scrape_songs(0, 10)] raise [ValueError] with
    nothing opened; so do a float and a missing page number;
    [scrape_songs(4, 4)] opens page 4. *)
Lemma scrape_songs_validates_witness :
  let scrape := scrape_songs Demo.response (Demo.urlopen (HTTPError 404))
                  Demo.read Demo.decode Demo.BeautifulSoup in
  (∃ msg, scrape (VInt (Int 5)) (VInt (Int 3)) true = Some (Raise (ValueError msg), []))
  ∧ (∃ msg, scrape (VInt (Int 0)) (VInt (Int 10)) true = Some (Raise (ValueError msg), []))
  ∧ (∃ msg, scrape (VFloat 5 (-1)) (VInt (Int 10)) true = Some (Raise (ValueError msg), []))
  ∧ (∃ msg, scrape (VInt (Int 1)) VNone true = Some (Raise (ValueError msg), []))
  ∧ (∃ r log, scrape (VInt (Int 4)) (VInt (Int 4)) true
              = Some (r, Urlopen (page_url (Int 4)) :: log)).
Proof.
  intros scrape.
  pose proof (scrape_songs_validates (Demo.urlopen (HTTPError 404))
                Demo.read Demo.decode Demo.BeautifulSoup) as H.
  repeat split.
  - apply (proj1 (H (VInt (Int 5)) (VInt (Int 3)) true)). reflexivity.
  - apply (proj1 (H (VInt (Int 0)) (VInt (Int 10)) true)). reflexivity.
  - apply (proj1 (H (VFloat 5 (-1)) (VInt (Int 10)) true)). reflexivity.
  - apply (proj1 (H (VInt (Int 1)) VNone true)). reflexivity.
  - destruct (proj2 (H (VInt (Int 4)) (VInt (Int 4)) true) eq_refl)
      as (s & r & log & [= <-] & Hrun).
    exists r, log. exact Hrun.
Defined.

Lemma scrape_songs_header_witness :
  ∃ tracks log,
    Demo.run (HTTPError 404) 1 3 true = Some (Return tracks, log)
    ∧ head tracks = Some (lit "title", lit "artist").
Proof.
  destruct (scrape_songs_header (Demo.urlopen (HTTPError 404)) Demo.read Demo.decode
              Demo.BeautifulSoup (VInt (Int 1)) (VInt (Int 3)) true)
    as (r & log & Hrun & Hhead).
  assert (r = Return (header :: Demo.recs 1)) as Hr.
  { vm_compute in Hrun. injection Hrun as <- _. reflexivity. }
  exists (header :: Demo.recs 1), log. split.
  - unfold Demo.run. rewrite Hrun, Hr. reflexivity.
  - apply Hhead, Hr.
Defined.

(** The first page holds one entry of each template: both are in the
    result, the [title-link] entry first, as in the document. *)
Lemma scrape_songs_document_order_witness :
  (∃ log, Demo.run (HTTPError 404) 1 1 false
          = Some (Return [header; (lit "Song Name", lit "Duo One, Duo Two");
                          (lit "Other", lit "Solo")], log))
  ∧ filter is_item_link (descendants Demo.page1) = [Demo.first_entry; Demo.second_entry].
Proof.
  split; [| vm_compute; reflexivity].
  apply (scrape_songs_document_order (Demo.urlopen (HTTPError 404)) Demo.read Demo.decode
           Demo.BeautifulSoup Demo.pages Demo.recs 1 1 2 false);
    [lia | lia | lia | lia | apply demo_pages_ok | left; reflexivity].
Defined.

(** * [get_track] on the entries of the small site *)

(** A two-artist entry: one separator.  An entry with an empty list: a
    record with an empty artist field. *)
Lemma get_track_artists_witness :
  (∃ title artists,
     get_track Demo.first_entry = Return (title, artists)
     ∧ artists = lit "Duo One, Duo Two"
     ∧ (occurrences sep artists + 1 = 2)%nat)
  ∧ (∃ title artists,
       get_track Demo.no_artist_entry = Return (title, artists) ∧ artists = []).
Proof.
  split; cycle 1.
  { destruct (get_track_artists Demo.no_artist_entry
                (Element (lit "h2") [] [NavigableString (lit "Untitled")])
                (Element (lit "ul") [lit "artist-list"] [])
                (lit "Untitled") [] eq_refl eq_refl eq_refl eq_refl)
      as (title & artists & Hrun & _ & _ & _ & Hempty).
    exists title, artists. split; [exact Hrun | by apply Hempty]. }
  destruct (get_track_artists Demo.first_entry
              (Element (lit "h2") [] [NavigableString Demo.quoted_title])
              (Element (lit "ul") [lit "artist-list"]
                 [Element (lit "li") [] [NavigableString (lit "Duo One")];
                  Element (lit "li") [] [NavigableString (lit "Duo Two")]])
              Demo.quoted_title [lit "Duo One"; lit "Duo Two"]
              eq_refl eq_refl eq_refl eq_refl)
    as (title & artists & Hrun & Hjoin & _ & Hexact & _).
  exists title, artists. split; [exact Hrun |]. split; [exact Hjoin |].
  apply Hexact; [| simpl; lia].
  repeat constructor.
Defined.

(** An entry with one artist, whose name has a comma: the artist field of
    the record holds one separator, not zero. *)
Lemma get_track_artists_counterexample :
  map node_string (find_all (lit "li")
                     (Element (lit "ul") [lit "artist-list"]
                        [Element (lit "li") [] [NavigableString (lit "Tyler, the Creator")]]))
  = [Some (lit "Tyler, the Creator")]
  ∧ get_track Demo.comma_entry = Return (lit "Earfquake", lit "Tyler, the Creator")
  ∧ occurrences sep (lit "Tyler, the Creator") = 1%nat
  ∧ occurrences sep (lit "Tyler, the Creator") ≠ (1 - 1)%nat.
Proof. repeat split; try (vm_compute; reflexivity). vm_compute. discriminate. Qed.

(** The quoting example of the specification. *)
Lemma get_track_title_witness :
  ∃ r, get_track Demo.first_entry = Return r ∧ r.1 = lit "Song Name".
Proof.
  exists (lit "Song Name", lit "Duo One, Duo Two").
  split; [vm_compute; reflexivity |].
  rewrite (get_track_title Demo.first_entry
             (Element (lit "h2") [] [NavigableString Demo.quoted_title])
             Demo.quoted_title (lit "Song Name", lit "Duo One, Duo Two")
             eq_refl eq_refl eq_refl).
  vm_compute. reflexivity.
Defined.

Lemma get_track_malformed_witness :
  (∃ msg, get_track Demo.no_headline_entry = Raise (AttributeError msg))
  ∧ ∃ e, comprehension get_track [Demo.first_entry; Demo.no_headline_entry] = Raise e.
Proof.
  assert (malformed Demo.no_headline_entry) as Hbad by (left; reflexivity).
  destruct (get_track_malformed Demo.no_headline_entry Hbad) as [Hraise Hlist].
  split; [exact Hraise |]. apply Hlist.
  apply list_elem_of_further, list_elem_of_here.
Defined.

(** * More on [get_track] *)

Lemma join_items_Return (i : nat) (items : list (option str)) (ss : list str) :
  join_items i items = Return ss -> items = map Some ss.
Proof.
  revert i ss. induction items as [| [x |] items IH]; intros i ss; simpl.
  - by intros [= <-].
  - destruct (join_items (S i) items) as [ss' | e] eqn:Hrest; simpl; [| discriminate].
    intros [= <-]. simpl. f_equal. by eapply IH.
  - discriminate.
Qed.

Lemma join_items_first_None (i : nat) (names : list str) (rest : list (option str)) :
  join_items i (map Some names ++ None :: rest) = Raise (not_a_str (i + length names)).
Proof.
  revert i. induction names as [| x names IH]; intros i; simpl.
  - by rewrite Nat.add_0_r.
  - rewrite IH. simpl. by rewrite Nat.add_succ_r.
Qed.

Lemma join_items_Raise (i : nat) (items : list (option str)) (e : exn) :
  join_items i items = Raise e ->
  ∃ names rest, items = map Some names ++ None :: rest
                ∧ e = not_a_str (i + length names).
Proof.
  revert i. induction items as [| [x |] items IH]; intros i; simpl.
  - discriminate.
  - destruct (join_items (S i) items) as [ss | e'] eqn:Hrest; simpl; [discriminate |].
    intros [= <-]. apply IH in Hrest as (names & rest & -> & ->).
    exists (x :: names), rest. split; [reflexivity |].
    simpl. by rewrite Nat.add_succ_r.
  - intros [= <-]. exists [], items. split; [reflexivity |].
    simpl. by rewrite Nat.add_0_r.
Qed.

Lemma get_track_Return (item_link : node) (r : record) :
  get_track item_link = Return r ->
  ∃ h2 title_raw ul names,
    find (lit "h2") item_link = Some h2
    ∧ node_string h2 = Some title_raw
    ∧ find (lit "ul") item_link = Some ul
    ∧ map node_string (find_all (lit "li") ul) = map Some names
    ∧ r = (translate unwanted_table title_raw, join sep names).
Proof.
  unfold get_track, join_opt.
  destruct (find (lit "h2") item_link) as [h2 |] eqn:Hh2; [| discriminate].
  destruct (node_string h2) as [title_raw |] eqn:Hraw; [| discriminate].
  destruct (find (lit "ul") item_link) as [ul |] eqn:Hul; [| discriminate].
  destruct (join_items 0 _) as [names | e] eqn:Hjoin; simpl; [| discriminate].
  intros [= <-]. apply join_items_Return in Hjoin.
  exists h2, title_raw, ul, names. done.
Qed.

(** X1. [get_track] returns a record exactly for an entry that has a
    headline with a text and a list whose items each have a text; the record
    is then the cleaned headline text and the joined item texts. *)
Theorem get_track_returns_iff (item_link : node) (r : record) :
  get_track item_link = Return r
  ↔ ∃ h2 title_raw ul names,
      find (lit "h2") item_link = Some h2
      ∧ node_string h2 = Some title_raw
      ∧ find (lit "ul") item_link = Some ul
      ∧ map node_string (find_all (lit "li") ul) = map Some names
      ∧ r = (translate unwanted_table title_raw, join sep names).
Proof.
  split; [apply get_track_Return |].
  intros (h2 & title_raw & ul & names & Hh2 & Hraw & Hul & Hli & ->).
  by eapply get_track_well_formed.
Qed.

(** X2. [get_track] raises in exactly four cases, tried in this order: no
    headline, a headline without a text, no list (an [AttributeError]
    naming [string], [translate] and [find_all]), and a list item without a
    text (the [TypeError] of [str.join], naming the index of the first such
    item). *)
Theorem get_track_raises_iff (item_link : node) (e : exn) :
  get_track item_link = Raise e
  ↔ (find (lit "h2") item_link = None ∧ e = no_attribute "string")
    ∨ (∃ h2, find (lit "h2") item_link = Some h2 ∧ node_string h2 = None
             ∧ e = no_attribute "translate")
    ∨ (∃ h2 title_raw, find (lit "h2") item_link = Some h2
             ∧ node_string h2 = Some title_raw
             ∧ find (lit "ul") item_link = None ∧ e = no_attribute "find_all")
    ∨ (∃ h2 title_raw ul names rest, find (lit "h2") item_link = Some h2
             ∧ node_string h2 = Some title_raw
             ∧ find (lit "ul") item_link = Some ul
             ∧ map node_string (find_all (lit "li") ul) = map Some names ++ None :: rest
             ∧ e = not_a_str (length names)).
Proof.
  unfold get_track, join_opt.
  destruct (find (lit "h2") item_link) as [h2 |].
  2:{ split; [intros [= <-]; eauto |].
      intros [[_ ->] | [(? & [=] & _) | [(? & ? & [=] & _) | (? & ? & ? & ? & ? & [=] & _)]]].
      reflexivity. }
  destruct (node_string h2) as [title_raw |] eqn:Hraw.
  2:{ split; [intros [= <-]; eauto 10 |].
      intros [[[=] _] | [(? & [= <-] & _ & ->) | [(? & ? & [= <-] & Hs & _)
                                                  | (? & ? & ? & ? & ? & [= <-] & Hs & _)]]];
        [reflexivity | congruence | congruence]. }
  destruct (find (lit "ul") item_link) as [ul |].
  2:{ split; [intros [= <-]; eauto 10 |].
      intros [[[=] _] | [(? & [= <-] & Hs & _) | [(? & ? & _ & _ & _ & ->)
                                                  | (? & ? & ? & ? & ? & _ & _ & [=] & _)]]];
        [congruence | reflexivity]. }
  destruct (join_items 0 _) as [names | e'] eqn:Hjoin; simpl.
  - split; [discriminate |].
    intros [[[=] _] | [(? & [= <-] & Hs & _) | [(? & ? & _ & _ & [=] & _)
                                                | (? & ? & ? & ns & rest & _ & _ & [= <-] & Hli & _)]]];
      [congruence |].
    rewrite Hli, join_items_first_None in Hjoin. discriminate.
  - split.
    + intros [= <-]. apply join_items_Raise in Hjoin as (names & rest & Hli & ->).
      right; right; right. exists h2, title_raw, ul, names, rest. done.
    + intros [[[=] _] | [(? & [= <-] & Hs & _) | [(? & ? & _ & _ & [=] & _)
                                                  | (? & ? & ? & ns & rest & _ & _ & [= <-] & Hli & ->)]]];
        [congruence |].
      rewrite Hli, join_items_first_None in Hjoin. by injection Hjoin as <-.
Qed.

Lemma translate_unwanted_clean (s : str) :
  (ldquo ∉ translate unwanted_table s) ∧ (rdquo ∉ translate unwanted_table s)
  ∧ (dquote ∉ translate unwanted_table s).
Proof.
  rewrite translate_unwanted_filter.
  repeat split; intros [Hnot _]%list_elem_of_filter; apply Hnot; unfold unwanted; set_solver.
Qed.

(** X3. The title of a returned record contains none of the three
    characters, is never longer than the headline text, and is the headline
    text itself when that text has none of them. *)
Theorem get_track_title_clean (item_link : node) (r : record) :
  get_track item_link = Return r ->
  clean_title r
  ∧ ∀ h2 title_raw,
      find (lit "h2") item_link = Some h2 ->
      node_string h2 = Some title_raw ->
      (length r.1 <= length title_raw)%nat
      ∧ (Forall (fun c => c ∉ unwanted) title_raw -> r.1 = title_raw).
Proof.
  intros (h2 & title_raw & ul & names & Hh2 & Hraw & _ & _ & ->)%get_track_Return.
  split; [apply translate_unwanted_clean |].
  intros h2' raw' Hh2' Hraw'. rewrite Hh2 in Hh2'. injection Hh2' as <-.
  rewrite Hraw in Hraw'. injection Hraw' as <-.
  cbn [fst]. rewrite translate_unwanted_filter. split.
  - apply length_filter.
  - intros Hall. clear -Hall. induction Hall as [| c l Hc _ IH]; [reflexivity |].
    rewrite filter_cons. case_decide; [by rewrite IH | contradiction].
Qed.

(** * The text written by [json.dump] *)

Lemma hex_digit_printable (d : N) : (d < 16)%N -> printable (Json.hex_digit d).
Proof.
  unfold printable, Json.hex_digit. intros Hd.
  destruct (N.ltb_spec d 10); lia.
Qed.

Lemma hex4_printable (n : N) : Forall printable (Json.hex4 n).
Proof.
  unfold Json.hex4.
  repeat constructor; apply hex_digit_printable, N.mod_upper_bound; discriminate.
Qed.

Lemma escape_char_printable (c : codepoint) : Forall printable (Json.escape_char c).
Proof.
  assert (∀ n, Forall printable (Json.backslash :: (lit "u" ++ Json.hex4 n))) as Hu.
  { intros n. constructor; [by compute |].
    apply Forall_app. split; [| apply hex4_printable].
    repeat constructor; by compute. }
  unfold Json.escape_char.
  repeat (match goal with
          | |- context [(?a =? ?b)%N] => destruct (N.eqb_spec a b)
          | |- context [(?a <? ?b)%N] => destruct (N.ltb_spec a b)
          | |- context [(?a <=? ?b)%N] => destruct (N.leb_spec a b)
          end);
    try apply Hu;
    try (apply Forall_app; split; apply Hu);
    try (repeat constructor; by compute);
    try (repeat constructor; unfold printable; lia).
Qed.

Lemma encode_str_printable (s : str) : Forall printable (Json.encode_str s).
Proof.
  unfold Json.encode_str. apply Forall_app. split; [repeat constructor; by compute |].
  apply Forall_app. split; [| repeat constructor; by compute].
  induction s as [| c s IH]; simpl; [constructor |].
  apply Forall_app. split; [apply escape_char_printable | exact IH].
Qed.

(** X8. The text that [json.dump] writes for a list of records holds only
    printable ASCII characters, whatever characters the titles and artist
    names hold: the file reads the same under every ASCII-compatible
    encoding. *)
Theorem dumps_printable (songs : list record) : Forall printable (Json.dumps songs).
Proof.
  unfold Json.dumps. apply Forall_app. split; [repeat constructor; by compute |].
  apply Forall_app. split; [| repeat constructor; by compute].
  induction songs as [| r [| r' songs] IH].
  - constructor.
  - cbn [map join]. unfold Json.encode_record.
    rewrite !Forall_app. repeat split; try apply encode_str_printable;
      repeat constructor; by compute.
  - change (Forall printable
              (Json.encode_record r ++ lit ", "
                 ++ join (lit ", ") (map Json.encode_record (r' :: songs)))).
    rewrite !Forall_app. split; [| split; [repeat constructor; by compute | exact IH]].
    unfold Json.encode_record.
    rewrite !Forall_app. repeat split; try apply encode_str_printable;
      repeat constructor; by compute.
Qed.

(** X14. A string of printable ASCII characters without double quote and
    backslash is written as it is, between two double quotes. *)
Theorem encode_str_plain (s : str) :
  Forall (fun c => printable c ∧ c ≠ dquote ∧ c ≠ Json.backslash) s ->
  Json.encode_str s = dquote :: s ++ [dquote].
Proof.
  intros Hs. unfold Json.encode_str. cbn [app]. do 2 f_equal.
  induction Hs as [| c s (Hc & Hq & Hb) _ IH]; [reflexivity |].
  cbn [flat_map]. rewrite IH.
  assert (Json.escape_char c = [c]) as ->; [| reflexivity].
  unfold printable, dquote, Json.backslash in *. unfold Json.escape_char.
  repeat (match goal with
          | |- context [(?a =? ?b)%N] => destruct (N.eqb_spec a b); [lia |]
          | |- context [(?a <? ?b)%N] => destruct (N.ltb_spec a b); [lia |]
          | |- context [(?a <=? ?b)%N] => destruct (N.leb_spec a b); [| lia]
          end).
  reflexivity.
Qed.

(** * More on the page URLs and the printed lines *)

Lemma lit_inj (a b : string) : lit a = lit b -> a = b.
Proof.
  unfold lit. intros H.
  rewrite <- (string_of_list_ascii_of_string a), <- (string_of_list_ascii_of_string b).
  f_equal. revert H. generalize (list_ascii_of_string a) (list_ascii_of_string b).
  intros l1. induction l1 as [| x l1 IH]; intros [| y l2]; simpl;
    try discriminate; [reflexivity |].
  intros [= Hxy Hrest]. f_equal; [| by apply IH].
  apply Nat2N.inj in Hxy.
  rewrite <- (ascii_nat_embedding x), <- (ascii_nat_embedding y). by rewrite Hxy.
Qed.

Lemma of_int_inj (p q : Z) : of_int p = of_int q -> p = q.
Proof.
  unfold of_int. intros H%lit_inj.
  apply DecimalZ.to_int_inj.
  assert (∀ z, Z.to_int z ≠ Decimal.Pos Decimal.Nil
               ∧ Z.to_int z ≠ Decimal.Neg Decimal.Nil) as Hnil.
  { intros [| z | z]; simpl; split; try discriminate;
      intros [= Hz]; by apply DecimalPos.Unsigned.to_uint_nonnil in Hz. }
  destruct (Hnil p) as [Hp1 Hp2]. destruct (Hnil q) as [Hq1 Hq2].
  pose proof (NilZero.isi _ Hp1 Hp2) as Hp. pose proof (NilZero.isi _ Hq1 Hq2) as Hq.
  rewrite H in Hp. rewrite Hp in Hq. by injection Hq.
Qed.

Lemma page_url_inj (p q : Z) : page_url (Int p) = page_url (Int q) -> p = q.
Proof.
  unfold page_url. intros H%app_inv_head. by apply of_int_inj.
Qed.

Lemma opened_print_if (verbose : bool) (line : str) : opened (print_if verbose line) = [].
Proof. by destruct verbose. Qed.

Lemma summary_Urlopen (url : str) : ¬ summary (Urlopen url).
Proof. intros [i [H | H]]; discriminate. Qed.

Lemma summary_getting_line (q : pyint) : ¬ summary (Print (getting_line q)).
Proof.
  intros [i [H | H]]; injection H as H;
    unfold getting_line, finished_line, limit_line in H;
    cbn [lit list_ascii_of_string map app] in H; discriminate.
Qed.

Section ScraperRuns.

Context {response : Type}.
Variable urlopen : str -> outcome response.
Variable read : response -> outcome bytes.
Variable decode : bytes -> outcome str.
Variable BeautifulSoup : str -> node.

(** The functions of the scraper at these libraries. *)
Local Abbreviation tracks_of := (page_tracks response read decode BeautifulSoup).
Local Abbreviation loop := (while_loop response urlopen read decode BeautifulSoup).
Local Abbreviation scrape := (scrape_songs response urlopen read decode BeautifulSoup).

(** A run either fails the checks of its arguments or enters the loop at
    the first page. *)
Lemma scrape_songs_cases (start_page end_page : pyval) (verbose : bool) :
  (∃ msg, scrape start_page end_page verbose = Some (Raise (ValueError msg), []))
  ∨ (∃ s e, as_int start_page = Some s ∧ as_int end_page = Some e
            ∧ 1 <= int_of s ∧ int_of s <= int_of e
            ∧ scrape start_page end_page verbose
              = loop (iterations s e) e verbose s [header] []).
Proof.
  unfold scrape_songs.
  destruct (as_int start_page) as [s |]; [| eauto].
  destruct (Z.leb_spec (int_of s) 0); [eauto |].
  destruct (as_int end_page) as [e |]; [| eauto].
  destruct (Z.ltb_spec (int_of e) (int_of s)); [eauto |].
  right. exists s, e. repeat split; lia.
Qed.

(** X4. When every page from [s] to [e] opens and parses, the run opens
    exactly these pages, once each and in increasing order, returns the
    header followed by their tracks, and its last line, when verbose, is the
    page-limit line. *)
Theorem scrape_songs_page_limit (pages : Z -> response) (recs : Z -> list record)
    (s e : Z) (verbose : bool) :
  1 <= s -> s <= e ->
  pages_ok urlopen tracks_of pages recs s (e + 1 - s) ->
  scrape (VInt (Int s)) (VInt (Int e)) verbose
  = Some (Return (header :: concat (map recs (seqZ s (e + 1 - s)))),
          concat (map (page_log verbose) (seqZ s (e + 1 - s)))
            ++ print_if verbose (limit_line (Int e))).
Proof.
  intros Hs Hse Hok.
  rewrite (scrape_songs_pages_ok urlopen read decode BeautifulSoup pages recs s e (e + 1))
    by (done || lia).
  replace (e + 1 - (e + 1)) with 0 by lia.
  cbn [while_loop int_of Z.to_nat].
  destruct (Z.leb_spec (e + 1) e) as [? | _]; [lia | reflexivity].
Qed.

(** X5. When page [p] opens but reading, decoding or extracting it raises,
    the run raises that exception, whatever its class ([HTTPError]
    included: only [urlopen] is inside the [try]), and the tracks of the
    earlier pages are not returned. *)
Theorem scrape_songs_page_error (pages : Z -> response) (recs : Z -> list record)
    (s e p : Z) (page : response) (exc : exn) (verbose : bool) :
  1 <= s -> s <= p -> p <= e ->
  pages_ok urlopen tracks_of pages recs s (p - s) ->
  urlopen (page_url (Int p)) = Return page ->
  tracks_of page = Raise exc ->
  scrape (VInt (Int s)) (VInt (Int e)) verbose
  = Some (Raise exc,
          concat (map (page_log verbose) (seqZ s (p - s))) ++ page_log verbose p).
Proof.
  intros Hs Hsp Hpe Hok Hopen Hexc.
  rewrite (scrape_songs_pages_ok urlopen read decode BeautifulSoup pages recs s e p)
    by (done || lia).
  cbn [while_loop int_of].
  destruct (Z.leb_spec p e) as [_ | ?]; [| lia].
  rewrite Hopen, Hexc. unfold page_log. by rewrite <- app_assoc.
Qed.

Lemma while_loop_opened (fuel : nat) (end_page : pyint) (verbose : bool) (p : Z)
    (all_tracks : list record) (log : list event)
    (r : outcome (list record)) (log' : list event) :
  loop fuel end_page verbose (Int p) all_tracks log = Some (r, log') ->
  ∃ k : nat,
    Z.of_nat k <= Z.max 0 (int_of end_page + 1 - p)
    ∧ opened log' = opened log ++ map (fun q => page_url (Int q)) (seqZ p (Z.of_nat k)).
Proof.
  revert p all_tracks log.
  induction fuel as [| fuel IH]; intros p all_tracks log; [discriminate |].
  cbn [while_loop int_of].
  assert (∀ k : nat, seqZ p (Z.of_nat (S k)) = p :: seqZ (p + 1) (Z.of_nat k)) as Hseq.
  { intros k. rewrite seqZ_cons by lia. f_equal. f_equal; lia. }
  destruct (Z.leb_spec p (int_of end_page)) as [Hle | Hgt].
  - destruct (urlopen (page_url (Int p))) as [page | exc].
    + destruct (tracks_of page) as [new | exc].
      * intros (k & Hk & ->)%IH. exists (S k). split; [lia |].
        rewrite Hseq, !opened_app, opened_print_if, app_nil_r.
        by rewrite <- app_assoc.
      * intros [= _ <-]. exists 1%nat. split; [lia |].
        rewrite (Hseq 0%nat), !opened_app, opened_print_if, app_nil_r. reflexivity.
    + destruct (is_HTTPError exc); intros [= _ <-]; exists 1%nat; (split; [lia |]);
        rewrite (Hseq 0%nat), ?opened_app, ?opened_print_if, ?app_nil_r; reflexivity.
  - intros [= _ <-]. exists 0%nat. split; [lia |].
    rewrite opened_app, opened_print_if, !app_nil_r. reflexivity.
Qed.

(** X6. Whatever the libraries answer, a run over pages [s] to [e] opens
    the URLs of pages [s], [s + 1], ... in this order, without a gap, and
    at most [e + 1 - s] of them. *)
Theorem scrape_songs_opens_in_order (s e : Z) (verbose : bool)
    (r : outcome (list record)) (log : list event) :
  scrape (VInt (Int s)) (VInt (Int e)) verbose = Some (r, log) ->
  ∃ k : nat,
    Z.of_nat k <= Z.max 0 (e + 1 - s)
    ∧ opened log = map (fun q => page_url (Int q)) (seqZ s (Z.of_nat k)).
Proof.
  destruct (scrape_songs_cases (VInt (Int s)) (VInt (Int e)) verbose)
    as [[msg ->] | (s' & e' & [= <-] & [= <-] & _ & _ & ->)].
  - intros [= _ <-]. exists 0%nat. split; [lia | reflexivity].
  - intros H. apply while_loop_opened in H. exact H.
Qed.

(** X7. Different page numbers have different URLs, and no run opens a URL
    twice. *)
Theorem scrape_songs_never_reopens (s e : Z) (verbose : bool)
    (r : outcome (list record)) (log : list event) :
  scrape (VInt (Int s)) (VInt (Int e)) verbose = Some (r, log) ->
  NoDup (opened log)
  ∧ ∀ p q, page_url (Int p) = page_url (Int q) -> p = q.
Proof.
  intros Hrun. split; [| apply page_url_inj].
  destruct (scrape_songs_cases (VInt (Int s)) (VInt (Int e)) verbose)
    as [[msg Hbad] | (s' & e' & [= <-] & [= <-] & _ & _ & Hloop)].
  - rewrite Hbad in Hrun. injection Hrun as _ <-. constructor.
  - rewrite Hloop in Hrun. apply while_loop_opened in Hrun as (k & _ & ->).
    change (opened [] ++ ?l) with l.
    change (map ?f ?l) with (f <$> l).
    apply NoDup_fmap_2; [intros p q; apply page_url_inj | apply NoDup_seqZ].
Qed.

Lemma while_loop_first_open (fuel : nat) (end_page : pyint) (verbose : bool)
    (page_no : pyint) (all_tracks : list record) :
  int_of page_no <= int_of end_page ->
  (Z.to_nat (int_of end_page + 1 - int_of page_no) < fuel)%nat ->
  ∃ r log, loop fuel end_page verbose page_no all_tracks []
           = Some (r, Urlopen (page_url page_no) :: log).
Proof.
  intros Hle Hfuel. destruct fuel as [| fuel]; [lia |].
  cbn [while_loop].
  destruct (Z.leb_spec (int_of page_no) (int_of end_page)) as [_ | ?]; [| lia].
  destruct (urlopen (page_url page_no)) as [page | exc].
  - destruct (tracks_of page) as [new | exc]; [| simpl; eauto].
    match goal with
    | |- context [while_loop _ _ _ _ _ ?f ?ep ?v ?pn ?acc ?lg] =>
        destruct (while_loop_total urlopen read decode BeautifulSoup f ep v pn acc lg)
          as [[r log] Hrun]; [simpl; lia |]
    end.
    rewrite Hrun. apply while_loop_log_extends in Hrun as [more ->]. simpl. eauto.
  - destruct (is_HTTPError exc); simpl; eauto.
Qed.

(** X9. A boolean passes the [isinstance(_, int)] test of the first page:
    [False] is refused as a page below 1, and [True] is taken as page 1 but
    written into the first URL as [page=True]. *)
Theorem scrape_songs_bool_start (end_page : pyval) (verbose : bool) :
  scrape (VInt (Bool false)) end_page verbose
  = Some (Raise (ValueError (lit "First page number must be 1 or higher.")), [])
  ∧ ∀ e, as_int end_page = Some e -> 1 <= int_of e ->
      ∃ r log,
        scrape (VInt (Bool true)) end_page verbose
        = Some (r, Urlopen (lit "https://pitchfork.com/reviews/best/tracks/?page=True")
                     :: log).
Proof.
  split; [reflexivity |].
  intros e He Hle. unfold scrape_songs. cbn [as_int int_of Z.b2z].
  rewrite He.
  destruct (Z.ltb_spec (int_of e) 1) as [? | _]; [lia |].
  cbn [Z.leb Z.compare].
  apply (while_loop_first_open (iterations (Bool true) e) e verbose (Bool true) [header]);
    [simpl; lia | unfold iterations; lia].
Qed.

Lemma page_tracks_clean (page : response) (new : list record) :
  tracks_of page = Return new -> Forall clean_title new.
Proof.
  unfold page_tracks.
  destruct (read page) as [raw | exc]; simpl; [| discriminate].
  destruct (decode raw) as [html | exc]; simpl; [| discriminate].
  intros H%comprehension_Forall2.
  induction H as [| item_link r links new Hr _ IH]; constructor; [| exact IH].
  apply get_track_Return in Hr as (h2 & title_raw & ul & names & _ & _ & _ & _ & ->).
  apply translate_unwanted_clean.
Qed.

Lemma while_loop_clean (fuel : nat) (end_page : pyint) (verbose : bool)
    (page_no : pyint) (all_tracks : list record) (log : list event)
    (tracks : list record) (log' : list event) :
  loop fuel end_page verbose page_no all_tracks log = Some (Return tracks, log') ->
  Forall clean_title all_tracks ->
  Forall clean_title tracks.
Proof.
  revert page_no all_tracks log.
  induction fuel as [| fuel IH]; intros page_no all_tracks log; [discriminate |].
  cbn [while_loop].
  destruct (int_of page_no <=? int_of end_page).
  - destruct (urlopen (page_url page_no)) as [page | exc].
    + destruct (tracks_of page) as [new | exc] eqn:Hnew; [| discriminate].
      intros Hrun Hacc. apply IH in Hrun; [exact Hrun |].
      apply Forall_app. split; [exact Hacc | by eapply page_tracks_clean].
    + destruct (is_HTTPError exc); [| discriminate].
      by intros [= <- _].
  - by intros [= <- _].
Qed.

(** X10. In the list a run returns, no title contains U+201C, U+201D or
    the straight double quote, whatever the pages hold. *)
Theorem scrape_songs_titles_clean (start_page end_page : pyval) (verbose : bool)
    (tracks : list record) (log : list event) :
  scrape start_page end_page verbose = Some (Return tracks, log) ->
  Forall clean_title tracks.
Proof.
  destruct (scrape_songs_cases start_page end_page verbose)
    as [[msg ->] | (s & e & _ & _ & _ & _ & ->)]; [discriminate |].
  intros H. apply while_loop_clean in H; [exact H |].
  constructor; [| constructor].
  repeat split; compute_done.
Qed.

Lemma while_loop_summary (fuel : nat) (end_page page_no : pyint)
    (all_tracks : list record) (log : list event)
    (r : outcome (list record)) (log' : list event) :
  loop fuel end_page true page_no all_tracks log = Some (r, log') ->
  Forall (fun ev => ¬ summary ev) log ->
  match r with
  | Return _ =>
      ∃ body last, log' = body ++ [last] ∧ summary last
                   ∧ Forall (fun ev => ¬ summary ev) body
  | Raise _ => Forall (fun ev => ¬ summary ev) log'
  end.
Proof.
  revert page_no all_tracks log.
  induction fuel as [| fuel IH]; intros page_no all_tracks log; [discriminate |].
  cbn [while_loop print_if].
  destruct (int_of page_no <=? int_of end_page).
  - destruct (urlopen (page_url page_no)) as [page | exc].
    + assert (Forall (fun ev => ¬ summary ev) log ->
              Forall (fun ev => ¬ summary ev)
                ((log ++ [Urlopen (page_url page_no)]) ++ [Print (getting_line page_no)]))
        as Hstep.
      { intros Hlog. rewrite !Forall_app. repeat split; [exact Hlog | |];
          repeat constructor; [apply summary_Urlopen | apply summary_getting_line]. }
      destruct (tracks_of page) as [new | exc'].
      * intros Hrun Hlog. by apply IH in Hrun; [| apply Hstep].
      * intros [= <- <-] Hlog. by apply Hstep.
    + destruct (is_HTTPError exc); intros [= <- <-] Hlog.
      * exists (log ++ [Urlopen (page_url page_no)]), (Print (finished_line page_no)).
        split; [reflexivity |]. split; [exists page_no; by left |].
        apply Forall_app. split; [exact Hlog |].
        repeat constructor. apply summary_Urlopen.
      * apply Forall_app. split; [exact Hlog |].
        repeat constructor. apply summary_Urlopen.
  - intros [= <- <-] Hlog.
    exists log, (Print (limit_line end_page)).
    split; [reflexivity |]. split; [exists end_page; by right | exact Hlog].
Qed.

(** X11. A verbose run that returns prints exactly one closing line (the
    finished line or the page-limit line), and prints it last; a verbose
    run that raises prints no closing line. *)
Theorem scrape_songs_summary_line (start_page end_page : pyval)
    (r : outcome (list record)) (log : list event) :
  scrape start_page end_page true = Some (r, log) ->
  match r with
  | Return _ =>
      ∃ body last, log = body ++ [last] ∧ summary last
                   ∧ Forall (fun ev => ¬ summary ev) body
  | Raise _ => Forall (fun ev => ¬ summary ev) log
  end.
Proof.
  destruct (scrape_songs_cases start_page end_page true)
    as [[msg ->] | (s & e & _ & _ & _ & _ & ->)].
  - intros [= <- <-]. constructor.
  - intros H. apply while_loop_summary in H; [exact H | constructor].
Qed.

Local Abbreviation run_script := (script response urlopen read decode BeautifulSoup).

(** X12. The script always ends, having opened at most 300 URLs.  When
    [scrape_songs] raises, no file is touched; when it returns,
    [songs.json] holds the dump of a list that starts with the header,
    every other file is as before, and the run was a verbose one: the last
    thing it did was to print its closing line. *)
Theorem script_outcome (fs : gmap (list N) (list N)) :
  ∃ r log fs',
    run_script fs = Some (r, log, fs')
    ∧ (length (opened log) <= 300)%nat
    ∧ (∀ name, name ≠ lit "songs.json" -> fs' !! name = fs !! name)
    ∧ match r with
      | Raise _ => fs' = fs
      | Return _ =>
          (∃ rest, fs' !! lit "songs.json" = Some (Json.dumps (header :: rest)))
          ∧ ∃ body last, log = body ++ [last] ∧ summary last
      end.
Proof.
  unfold script.
  destruct (scrape_songs_terminates urlopen read decode BeautifulSoup
              (VInt (Int 1)) (VInt (Int 300)) true) as [[r log] Hrun].
  rewrite Hrun.
  assert (length (opened log) <= 300)%nat as Hopened.
  { destruct (scrape_songs_cases (VInt (Int 1)) (VInt (Int 300)) true)
      as [[msg Hbad] | (s & e & [= <-] & [= <-] & _ & _ & Hloop)].
    - rewrite Hbad in Hrun. injection Hrun as _ <-. simpl. lia.
    - rewrite Hloop in Hrun. apply while_loop_opened in Hrun as (k & Hk & ->).
      simpl in Hk. cbn [opened app]. rewrite length_map, length_seqZ. lia. }
  destruct r as [songs | exc].
  - exists (Return ()), log, (<[lit "songs.json" := Json.dumps songs]> fs).
    split; [reflexivity |]. split; [exact Hopened |]. split.
    + intros name Hname. by rewrite lookup_insert_ne.
    + destruct (scrape_songs_cases (VInt (Int 1)) (VInt (Int 300)) true)
        as [[msg Hbad] | (s & e & _ & _ & _ & _ & Hloop)]; [congruence |].
      rewrite Hloop in Hrun. split.
      * apply while_loop_extends in Hrun as [rest ->].
        exists rest. by rewrite lookup_insert_eq.
      * apply while_loop_summary in Hrun as (body & last & -> & Hlast & _);
          [eauto | constructor].
  - exists (Raise exc), log, fs. done.
Qed.

Lemma while_loop_inv (fuel : nat) (end_page : pyint) (verbose : bool) (p : Z)
    (all_tracks : list record) (log : list event)
    (r : outcome (list record)) (log' : list event) :
  loop fuel end_page verbose (Int p) all_tracks log = Some (r, log') ->
  p <= int_of end_page + 1 ->
  ∃ (k : nat) (pages : list response) (tss : list (list record)),
    Forall2 (fun q page => urlopen (page_url (Int q)) = Return page)
      (seqZ p (Z.of_nat k)) pages
    ∧ Forall2 (fun page ts => tracks_of page = Return ts) pages tss
    ∧ match r with
      | Return tracks =>
          tracks = all_tracks ++ concat tss
          ∧ (p + Z.of_nat k = int_of end_page + 1
             ∨ (p + Z.of_nat k <= int_of end_page
                ∧ ∃ code, urlopen (page_url (Int (p + Z.of_nat k)))
                          = Raise (HTTPError code)))
      | Raise exc =>
          p + Z.of_nat k <= int_of end_page
          ∧ ((urlopen (page_url (Int (p + Z.of_nat k))) = Raise exc
              ∧ is_HTTPError exc = false)
             ∨ (∃ page, urlopen (page_url (Int (p + Z.of_nat k))) = Return page
                        ∧ tracks_of page = Raise exc))
      end.
Proof.
  revert p all_tracks log.
  induction fuel as [| fuel IH]; intros p all_tracks log; [discriminate |].
  cbn [while_loop int_of].
  destruct (Z.leb_spec p (int_of end_page)) as [Hle | Hgt].
  - destruct (urlopen (page_url (Int p))) as [page | exc] eqn:Hopen.
    + destruct (tracks_of page) as [new | exc] eqn:Hnew.
      * intros Hrun _. apply IH in Hrun as (k & pages & tss & Hpages & Htss & Hr); [| lia].
        exists (S k), (page :: pages), (new :: tss).
        rewrite seqZ_cons by lia.
        replace (Z.pred (Z.of_nat (S k))) with (Z.of_nat k) by lia.
        replace (p + Z.of_nat (S k)) with (p + 1 + Z.of_nat k) by lia.
        split; [by constructor |]. split; [by constructor |].
        destruct r as [tracks | exc]; [| exact Hr].
        destruct Hr as [-> Hend]. cbn [concat]. by rewrite app_assoc.
      * intros [= <- _] _. exists 0%nat, [], [].
        rewrite Z.add_0_r. split; [constructor |]. split; [constructor |]. eauto.
    + destruct (is_HTTPError exc) eqn:Hkind; intros [= <- _] _;
        exists 0%nat, [], []; rewrite Z.add_0_r;
        (split; [constructor |]); (split; [constructor |]).
      * destruct exc; try discriminate. rewrite app_nil_r. eauto.
      * eauto.
  - intros [= <- _] Hp. exists 0%nat, [], [].
    rewrite Z.add_0_r. split; [constructor |]. split; [constructor |].
    rewrite app_nil_r. split; [reflexivity | left; lia].
Qed.

(** X13. What a run over pages [s] to [e] hands back always comes from a
    gapless prefix of the pages: some pages [s], ..., [s + k - 1] opened and
    parsed, and then either the run returned the header followed by exactly
    their tracks, because page [e] was done or because [urlopen] raised
    [HTTPError] for page [s + k]; or it raised the [ValueError] of the
    argument checks, or the exception that [urlopen] (not an [HTTPError]) or
    the processing of page [s + k] raised. *)
Theorem scrape_songs_inv (s e : Z) (verbose : bool)
    (r : outcome (list record)) (log : list event) :
  scrape (VInt (Int s)) (VInt (Int e)) verbose = Some (r, log) ->
  (∃ msg, r = Raise (ValueError msg) ∧ log = [] ∧ (s < 1 ∨ e < s))
  ∨ ∃ (k : nat) (pages : list response) (tss : list (list record)),
      Forall2 (fun q page => urlopen (page_url (Int q)) = Return page)
        (seqZ s (Z.of_nat k)) pages
      ∧ Forall2 (fun page ts => tracks_of page = Return ts) pages tss
      ∧ match r with
        | Return tracks =>
            tracks = header :: concat tss
            ∧ (s + Z.of_nat k = e + 1
               ∨ (s + Z.of_nat k <= e
                  ∧ ∃ code, urlopen (page_url (Int (s + Z.of_nat k)))
                            = Raise (HTTPError code)))
        | Raise exc =>
            s + Z.of_nat k <= e
            ∧ ((urlopen (page_url (Int (s + Z.of_nat k))) = Raise exc
                ∧ is_HTTPError exc = false)
               ∨ (∃ page, urlopen (page_url (Int (s + Z.of_nat k))) = Return page
                          ∧ tracks_of page = Raise exc))
        end.
Proof.
  unfold scrape_songs. cbn [as_int int_of].
  destruct (Z.leb_spec s 0) as [Hs | Hs].
  { intros [= <- <-]. left. eexists. split; [reflexivity |]. split; [reflexivity | lia]. }
  destruct (Z.ltb_spec e s) as [He | He].
  { intros [= <- <-]. left. eexists. split; [reflexivity |]. split; [reflexivity | lia]. }
  intros Hrun. right.
  apply while_loop_inv in Hrun; [| simpl; lia].
  exact Hrun.
Qed.

End ScraperRuns.

(** * The further properties on the small site *)

Lemma get_track_title_clean_witness :
  clean_title (lit "Song Name", lit "Duo One, Duo Two")
  ∧ (length (lit "Song Name") <= length Demo.quoted_title)%nat.
Proof.
  destruct (get_track_title_clean Demo.first_entry
              (lit "Song Name", lit "Duo One, Duo Two") eq_refl) as [Hclean Hraw].
  split; [exact Hclean |].
  apply (Hraw (Element (lit "h2") [] [NavigableString Demo.quoted_title])
           Demo.quoted_title eq_refl eq_refl).
Defined.

(** The only page of the range opens: the run ends on the page limit. *)
Lemma scrape_songs_page_limit_witness :
  Demo.run (HTTPError 404) 1 1 true
  = Some (Return [header; (lit "Song Name", lit "Duo One, Duo Two"); (lit "Other", lit "Solo")],
          [Urlopen (page_url (Int 1)); Print (getting_line (Int 1));
           Print (limit_line (Int 1))]).
Proof.
  apply (scrape_songs_page_limit (Demo.urlopen (HTTPError 404)) Demo.read Demo.decode
           Demo.BeautifulSoup Demo.pages Demo.recs 1 1 true);
    [lia | lia | apply demo_pages_ok].
Defined.

(** The first page has an entry without a headline: the run raises the
    [AttributeError] and returns nothing. *)
Lemma scrape_songs_page_error_witness :
  Broken.run 1 3 true
  = Some (Raise (no_attribute "string"),
          [Urlopen (page_url (Int 1)); Print (getting_line (Int 1))]).
Proof.
  apply (scrape_songs_page_error (Demo.urlopen (HTTPError 404)) Demo.read Demo.decode
           Broken.BeautifulSoup Demo.pages Demo.recs 1 3 1 1 (no_attribute "string") true);
    [lia | lia | lia | intros q Hq; lia | reflexivity | reflexivity].
Defined.

Lemma scrape_songs_opens_in_order_witness :
  ∃ k : nat,
    Z.of_nat k <= Z.max 0 (3 + 1 - 1)
    ∧ opened [Urlopen (page_url (Int 1)); Print (getting_line (Int 1));
              Urlopen (page_url (Int 2)); Print (finished_line (Int 2))]
      = map (fun q => page_url (Int q)) (seqZ 1 (Z.of_nat k)).
Proof.
  apply (scrape_songs_opens_in_order (Demo.urlopen (HTTPError 404)) Demo.read Demo.decode
           Demo.BeautifulSoup 1 3 true (Return (header :: Demo.recs 1))).
  vm_compute. reflexivity.
Defined.

Lemma scrape_songs_never_reopens_witness :
  NoDup [page_url (Int 1); page_url (Int 2)].
Proof.
  apply (scrape_songs_never_reopens (Demo.urlopen (HTTPError 404)) Demo.read Demo.decode
           Demo.BeautifulSoup 1 3 true (Return (header :: Demo.recs 1))
           [Urlopen (page_url (Int 1)); Print (getting_line (Int 1));
            Urlopen (page_url (Int 2)); Print (finished_line (Int 2))]).
  vm_compute. reflexivity.
Defined.

Lemma scrape_songs_titles_clean_witness :
  Forall clean_title
    [header; (lit "Song Name", lit "Duo One, Duo Two"); (lit "Other", lit "Solo")].
Proof.
  apply (scrape_songs_titles_clean (Demo.urlopen (HTTPError 404)) Demo.read Demo.decode
           Demo.BeautifulSoup (VInt (Int 1)) (VInt (Int 3)) false _
           [Urlopen (page_url (Int 1)); Urlopen (page_url (Int 2))]).
  vm_compute. reflexivity.
Defined.

Lemma scrape_songs_summary_line_witness :
  ∃ body last,
    [Urlopen (page_url (Int 1)); Print (getting_line (Int 1));
     Urlopen (page_url (Int 2)); Print (finished_line (Int 2))] = body ++ [last]
    ∧ summary last
    ∧ Forall (fun ev => ¬ summary ev) body.
Proof.
  apply (scrape_songs_summary_line (Demo.urlopen (HTTPError 404)) Demo.read Demo.decode
           Demo.BeautifulSoup (VInt (Int 1)) (VInt (Int 3))
           (Return (header :: Demo.recs 1))).
  vm_compute. reflexivity.
Defined.

(** The run that meets a 404 on page 2 is the run of one good page. *)
Lemma scrape_songs_inv_witness :
  ∃ (k : nat) (tss : list (list record)),
    header :: Demo.recs 1 = header :: concat tss
    ∧ (1 + Z.of_nat k = 3 + 1
       ∨ (1 + Z.of_nat k <= 3
          ∧ ∃ code, Demo.urlopen (HTTPError 404) (page_url (Int (1 + Z.of_nat k)))
                    = Raise (HTTPError code))).
Proof.
  destruct (scrape_songs_inv (Demo.urlopen (HTTPError 404)) Demo.read Demo.decode
              Demo.BeautifulSoup 1 3 false (Return (header :: Demo.recs 1))
              [Urlopen (page_url (Int 1)); Urlopen (page_url (Int 2))])
    as [(msg & Hmsg & _) | (k & pages & tss & _ & _ & Htracks & Hend)].
  - vm_compute. reflexivity.
  - discriminate.
  - exists k, tss. split; [exact Htracks | exact Hend].
Defined.

Lemma encode_str_plain_witness :
  Json.encode_str (lit "Song Name") = dquote :: lit "Song Name" ++ [dquote].
Proof.
  apply (encode_str_plain (lit "Song Name")).
  repeat constructor; try (by compute); discriminate.
Defined.

(** [scrape_songs(True, 3)] on the small site: the first request is for
    [page=True]. *)
Lemma scrape_songs_bool_start_witness :
  ∃ r log,
    scrape_songs Demo.response (Demo.urlopen (HTTPError 404)) Demo.read Demo.decode
      Demo.BeautifulSoup (VInt (Bool true)) (VInt (Int 3)) false
    = Some (r, Urlopen (lit "https://pitchfork.com/reviews/best/tracks/?page=True") :: log).
Proof.
  apply (proj2 (scrape_songs_bool_start (Demo.urlopen (HTTPError 404)) Demo.read
                  Demo.decode Demo.BeautifulSoup (VInt (Int 3)) false) (Int 3) eq_refl).
  simpl. lia.
Defined.
